(** * MoniBot Tempo worker: command-to-ledger pipeline

    A shallow embedding of [src/p2p.js], [src/blockchain.js],
    [src/database.js] and the cycle driver of [src/index.js].

    Conventions of the embedding.
    - JavaScript strings are byte strings ([string]); [toLowerCase] is the
      ASCII case map and [\s] the ASCII white space.  The other character
      classes of the source's regular expressions are ASCII by definition,
      so the matchers are exact on every text that has no non-ASCII capital
      and no non-ASCII white space.
    - JavaScript numbers are exact rationals ([Q]) plus [NaN]: binary
      rounding of doubles is not modelled.
    - [null] and [undefined] are [None].
    - An [async] function is a computation in the monad [M]: it threads the
      mutable state [State] and either returns or throws.
    - The tables of the datastore are lists; [insert] adds a row at the end.
      The schema is not part of the repository, so no constraint is imposed
      on the rows.  During one call the datastore client is in one of three
      moods ([DbMode]): it answers, it answers every request with an error
      (which this program never looks at, except for the campaign query),
      or it throws.
    - Console output, the health endpoint and timers are left out. *)

From Stdlib Require Import List String Ascii Bool Arith ZArith NArith QArith Qround Lia.
From Stdlib Require Import DecimalString DecimalN.
Import ListNotations.

Local Open Scope string_scope.
Local Open Scope Z_scope.

(** ** Character classes and string helpers *)

Module Str.

Definition code (c : ascii) : nat := nat_of_ascii c.

Definition between (lo hi : nat) (c : ascii) : bool :=
  ((lo <=? code c) && (code c <=? hi))%nat.

(** [\d] *)
Definition is_digit (c : ascii) : bool := between 48 57 c.

Definition is_upper (c : ascii) : bool := between 65 90 c.

Definition is_lower (c : ascii) : bool := between 97 122 c.

(** [\w] = [A-Za-z0-9_] *)
Definition is_word (c : ascii) : bool :=
  is_upper c || is_lower c || is_digit c || (code c =? 95)%nat.

(** [a-zA-Z0-9_-] : the class of the mention pattern *)
Definition is_handle (c : ascii) : bool :=
  is_word c || (code c =? 45)%nat.

(** [\s], ASCII part: TAB, LF, VT, FF, CR, SPACE *)
Definition is_space (c : ascii) : bool :=
  between 9 13 c || (code c =? 32)%nat.

Definition lower_char (c : ascii) : ascii :=
  if is_upper c then ascii_of_nat (code c + 32) else c.

Fixpoint toLowerCase (s : string) : string :=
  match s with
  | EmptyString => EmptyString
  | String c s' => String (lower_char c) (toLowerCase s')
  end.

(** [s.includes(sub)] *)
Fixpoint includes (s sub : string) : bool :=
  prefix sub s ||
  match s with
  | EmptyString => false
  | String _ s' => includes s' sub
  end.

(** [s.startsWith(p)] up to ASCII case, as under the [i] flag *)
Fixpoint prefix_ci (p s : string) : option string :=
  match p, s with
  | EmptyString, _ => Some s
  | String a p', String b s' =>
      if Ascii.eqb (lower_char a) (lower_char b) then prefix_ci p' s' else None
  | String _ _, EmptyString => None
  end.

(** The longest prefix of [s] whose characters satisfy [p], and the rest. *)
Fixpoint span (p : ascii -> bool) (s : string) : string * string :=
  match s with
  | EmptyString => (EmptyString, EmptyString)
  | String c s' =>
      if p c then let (a, b) := span p s' in (String c a, b)
      else (EmptyString, s)
  end.

(** [parts.join(sep)] *)
Fixpoint join (sep : string) (parts : list string) : string :=
  match parts with
  | [] => ""
  | [x] => x
  | x :: rest => x ++ sep ++ join sep rest
  end.

Definition is_empty (s : string) : bool :=
  match s with EmptyString => true | _ => false end.

End Str.

(** ** Numbers *)

Module Num.

(** A JavaScript number, without binary rounding. *)
Inductive num : Type :=
| NaN
| Fin (q : Q).

Definition digit_val (c : ascii) : Z := Z.of_nat (Str.code c) - 48.

(** Value of a string of decimal digits, most significant first. *)
Fixpoint digits_val (acc : Z) (s : string) : Z :=
  match s with
  | EmptyString => acc
  | String c s' => digits_val (10 * acc + digit_val c) s'
  end.

Definition pow10 (n : nat) : Z := 10 ^ Z.of_nat n.

(** The rational [ip.fp] for digit strings [ip] and [fp]. *)
Definition decimal (ip fp : string) : Q :=
  Qred (Qmake (digits_val 0 ip * pow10 (length fp) + digits_val 0 fp)
              (Z.to_pos (pow10 (length fp)))).

(** [parseFloat(s)] on an optional minus sign, digits, and an optional
    fraction; the longest such prefix is read and anything else is [NaN].
    Exponents and leading white space do not occur in the strings this
    program passes. *)
Definition parseFloat (s : string) : num :=
  let (neg, body) :=
    match s with
    | String c r => if Ascii.eqb c "-" then (true, r) else (false, s)
    | EmptyString => (false, s)
    end in
  let (ip, rest) := Str.span Str.is_digit body in
  let fp :=
    match rest with
    | String c r =>
        if Ascii.eqb c "." then fst (Str.span Str.is_digit r) else EmptyString
    | EmptyString => EmptyString
    end in
  if Str.is_empty ip && Str.is_empty fp then NaN
  else let q := decimal ip fp in Fin (if neg then Qred (Qopp q) else q).

Definition string_of_N (n : N) : string :=
  NilZero.string_of_uint (N.to_uint n).

Definition string_of_Z (z : Z) : string :=
  if z <? 0 then "-" ++ string_of_N (Z.to_N (- z)) else string_of_N (Z.to_N z).

(** Fraction digits of [r / d] for [0 <= r < d], by long division. *)
Fixpoint frac_digits (fuel : nat) (r d : Z) : string :=
  match fuel with
  | O => EmptyString
  | S fuel' =>
      if r =? 0 then EmptyString
      else String (ascii_of_nat (Z.to_nat (48 + (10 * r) / d)))
                  (frac_digits fuel' ((10 * r) mod d) d)
  end.

(** Positional rendering of a non-negative rational with a finite decimal
    expansion. *)
Definition positional (q : Q) : string :=
  let n := Qnum q in
  let d := Zpos (Qden q) in
  let fp := frac_digits (Pos.size_nat (Qden q)) (n mod d) d in
  string_of_Z (n / d) ++ (if Str.is_empty fp then "" else "." ++ fp).

(** The decimal exponent [e] with [q * 10^e] in [[1, 10)], for [0 < q < 1]. *)
Fixpoint small_exp (fuel : nat) (q : Q) : nat :=
  match fuel with
  | O => O
  | S fuel' =>
      if Qle_bool 1 q then O else S (small_exp fuel' (Qred (q * 10)))
  end.

(** [String(x)] / [x.toString()] / [`${x}`] for a number: positional
    notation from [1e-6] up, exponent notation below, as [Number::toString]
    prescribes.  (Magnitudes of [1e21] and more are rendered positionally.) *)
Definition toString (x : num) : string :=
  match x with
  | NaN => "NaN"
  | Fin q0 =>
      let q := Qred q0 in
      let neg := negb (Qle_bool 0 q) in
      let a := if neg then Qred (Qopp q) else q in
      let body :=
        if Qle_bool (1 # 1000000) a || Qle_bool a 0 then positional a
        else
          let e := small_exp (Pos.size_nat (Qden a)) a in
          positional (Qred (a * inject_Z (pow10 e))) ++ "e-" ++
          string_of_N (N.of_nat e) in
      (if neg then "-" else "") ++ body
  end.

Definition of_nat (n : nat) : Q := inject_Z (Z.of_nat n).

End Num.

Import Num.

(** ** Command parser ([src/p2p.js]) *)

Module Parser.

Import Str.

Definition TEMPO_KEYWORDS : list string :=
  ["on tempo"; "tempo"; "alphausd"; "αusd"].

Definition isTempoRelated (text : string) : bool :=
  let lower := toLowerCase text in
  existsb (fun kw => includes lower kw) TEMPO_KEYWORDS.

(** [\d+(?:\.\d+)?] anchored at the head of [s]: the matched text. *)
Definition match_number (s : string) : option string :=
  let (ip, rest) := span is_digit s in
  if is_empty ip then None
  else
    match rest with
    | String c r =>
        if Ascii.eqb c "." then
          let (fp, _) := span is_digit r in
          if is_empty fp then Some ip else Some (ip ++ "." ++ fp)
        else Some ip
    | EmptyString => Some ip
    end.

(** [s.match(/\$(\d+(?:\.\d+)?)/)]: group 1 of the leftmost match. *)
Fixpoint amountMatch (s : string) : option string :=
  match s with
  | EmptyString => None
  | String c s' =>
      if Ascii.eqb c "$" then
        match match_number s' with
        | Some m => Some m
        | None => amountMatch s'
        end
      else amountMatch s'
  end.

(** [s.match(/@([a-zA-Z0-9_-]+)/g) || []]: every match, left to right, the
    scan resuming after each match. *)
Fixpoint mentions_from (fuel : nat) (s : string) : list string :=
  match fuel with
  | O => []
  | S fuel' =>
      match s with
      | EmptyString => []
      | String c s' =>
          if Ascii.eqb c "@" then
            let (name, rest) := span is_handle s' in
            if is_empty name then mentions_from fuel' s'
            else String "@" name :: mentions_from fuel' rest
          else mentions_from fuel' s'
      end
  end.

Definition mentions (text : string) : list string :=
  mentions_from (String.length text) text.

(** [m.slice(1)] *)
Definition slice1 (m : string) : string :=
  match m with
  | EmptyString => EmptyString
  | String _ r => r
  end.

Definition not_reserved (m : string) : bool :=
  negb (m =? "monibot")%string && negb (m =? "monipay")%string.

Record Intent : Type := {
  amount : Q;
  recipients : list string;
  isEach : bool
}.

Definition parseP2PCommand (text : string) : option Intent :=
  let lower := toLowerCase text in
  match amountMatch lower with
  | None => None
  | Some m =>
      match parseFloat m with
      | NaN => None
      | Fin amount =>
          if Qle_bool amount 0 || negb (Qle_bool amount 10000) then None
          else
            let recipients :=
              filter not_reserved
                     (map (fun m => toLowerCase (slice1 m)) (mentions text)) in
            if (List.length recipients =? 0)%nat then None
            else Some {| amount := amount;
                         recipients := recipients;
                         isEach := includes lower "each" |}
      end
  end.

(** *** The quote-tweet filter
    [/(?:send\s+\$?\d|pay\s+@?\w+\s+\$?\d)/i.test(text)] *)

(** An optional single character [c]. *)
Definition opt_char (c : ascii) (s : string) : string :=
  match s with
  | String c' r => if Ascii.eqb c' c then r else s
  | EmptyString => s
  end.

Definition starts_with_digit (s : string) : bool :=
  match s with
  | String c _ => is_digit c
  | EmptyString => false
  end.

(** [p+]: the rest after the longest non-empty run. *)
Definition plus (p : ascii -> bool) (s : string) : option string :=
  let (run, rest) := span p s in
  if is_empty run then None else Some rest.

(** [\$?\d] *)
Definition amount_follows (s : string) : bool :=
  starts_with_digit (opt_char "$" s).

(** [send\s+\$?\d] at the head of [s] *)
Definition send_here (s : string) : bool :=
  match prefix_ci "send" s with
  | Some r =>
      match plus is_space r with
      | Some r' => amount_follows r'
      | None => false
      end
  | None => false
  end.

(** [pay\s+@?\w+\s+\$?\d] at the head of [s] *)
Definition pay_here (s : string) : bool :=
  match prefix_ci "pay" s with
  | Some r =>
      match plus is_space r with
      | Some r1 =>
          match plus is_word (opt_char "@" r1) with
          | Some r2 =>
              match plus is_space r2 with
              | Some r3 => amount_follows r3
              | None => false
              end
          | None => false
          end
      | None => false
      end
  | None => false
  end.

Fixpoint hasDirectCommand (text : string) : bool :=
  send_here text || pay_here text ||
  match text with
  | EmptyString => false
  | String _ s' => hasDirectCommand s'
  end.

End Parser.

(** ** Data model *)

Inductive Status : Type := completed | failed | skipped.

Inductive Kind : Type := grant | p2p_command.

Module Tweet.
Record t : Type := {
  id : N;
  text : string;
  author_id : string;
  (** the [type] of each entry of [referenced_tweets], when present *)
  referenced_tweets : option (list string)
}.
End Tweet.

Module User.
Record t : Type := {
  id : string;
  username : string
}.
End User.

Module Profile.
Record t : Type := {
  id : string;
  wallet_address : option string;
  tempo_address : option string;
  pay_tag : option string;
  x_username : option string
}.
End Profile.

Module Campaign.
Record t : Type := {
  id : string;
  tweet_id : option N;
  network : string;
  status : string;
  grant_amount : num;
  max_participants : option Z;
  current_participants : option Z;
  budget_spent : option num
}.
End Campaign.

(** A row of [monibot_transactions]. *)
Module Tx.
Record t : Type := {
  tweet_id : N;
  chain : string;
  tx_hash : string;
  sender_id : string;
  receiver_id : string;
  amount : num;
  fee : num;
  type : Kind;
  status : Status;
  payer_pay_tag : option string;
  recipient_pay_tag : option string;
  error_reason : option string;
  campaign_id : option string;
  replied : option bool
}.
End Tx.

(** What [twitter.v2.search] resolves to. *)
Record SearchResult : Type := {
  data : option (list Tweet.t);
  newest_id : option N;
  users : option (list User.t)
}.

Inductive res (A : Type) : Type :=
| Ok (a : A)
| Throw (msg : string).
Arguments Ok {A} a.
Arguments Throw {A} msg.

(** A call of [walletClient.writeContract]. *)
Record ContractCall : Type := {
  address : string;
  functionName : string;
  to : option string;
  value : Z;
  tag : string
}.

Record Receipt : Type := {
  blockNumber : Z;
  reverted : bool
}.

(** The calls of the two executors and of the chain client, in order.  The
    first two constructors mark the entry into an executor; the others are
    the requests that leave the process. *)
Inductive Event : Type :=
| CallExecuteGrant (recipient : option string) (amount : num) (campaignId : string)
| CallExecuteTransfer (recipient : option string) (amount : num) (memo : string)
| Submitted (call : ContractCall)
| Waited (hash : string) (timeout : Z)
| BalanceRead (owner : option string).

(** How the datastore client answers a request: with rows, with
    [{ data: null, error }], or by throwing. *)
Inductive DbMode : Type := DbUp | DbError | DbThrows.

(** The collaborators of one polling cycle. *)
Record Env : Type := {
  db_mode : DbMode;
  MONIBOT_PROFILE_ID : option string;
  (** [Date.now()] *)
  now : N;
  (** [getTwitterClient()] and its two searches *)
  twitter_client : bool;
  search_commands : option N -> res SearchResult;
  search_replies : option N -> res SearchResult;
  (** [walletClient.writeContract]: a hash, or a throw; the answer may
      depend on everything that happened before *)
  writeContract : list Event -> ContractCall -> res string;
  (** [publicClient.waitForTransactionReceipt]: throws on timeout *)
  waitForTransactionReceipt : string -> res Receipt;
  (** [publicClient.readContract(... 'balanceOf' ...)] *)
  balanceOf : option string -> res Z
}.

(** The tables, the module-level variables and the trace of outside calls. *)
Record State : Type := {
  monibot_transactions : list Tx.t;
  campaigns : list Campaign.t;
  profiles : list Profile.t;
  lastProcessedTweetId : option N;
  trace : list Event;
  cycleCount : nat;
  processedCount : nat;
  errorCount : nat
}.

(** ** The monad of [async] functions *)

Definition M (A : Type) : Type := State -> res A * State.

Definition ret {A : Type} (a : A) : M A := fun s => (Ok a, s).

Definition throw {A : Type} (msg : string) : M A := fun s => (Throw msg, s).

Definition bind {A B : Type} (m : M A) (k : A -> M B) : M B :=
  fun s =>
    match m s with
    | (Ok a, s') => k a s'
    | (Throw e, s') => (Throw e, s')
    end.

(** [try { m } catch (err) { h err.message }] *)
Definition try_catch {A : Type} (m : M A) (h : string -> M A) : M A :=
  fun s =>
    match m s with
    | (Ok a, s') => (Ok a, s')
    | (Throw e, s') => h e s'
    end.

Definition lift {A : Type} (r : res A) : M A := fun s => (r, s).

Definition get : M State := fun s => (Ok s, s).

Definition emit (e : Event) : M unit :=
  fun s =>
    (Ok tt,
     {| monibot_transactions := monibot_transactions s;
        campaigns := campaigns s;
        profiles := profiles s;
        lastProcessedTweetId := lastProcessedTweetId s;
        trace := trace s ++ [e];
        cycleCount := cycleCount s;
        processedCount := processedCount s;
        errorCount := errorCount s |}).

Declare Scope monad_scope.
Delimit Scope monad_scope with monad.
Notation "x <- m ;; k" := (bind m (fun x => k))
  (at level 61, m at next level, right associativity) : monad_scope.
Notation "m ;;; k" := (bind m (fun _ => k))
  (at level 61, right associativity) : monad_scope.
Local Open Scope monad_scope.

(** [a || b] on nullable strings: the empty string is falsy. *)
Definition js_or (a b : option string) : option string :=
  match a with
  | Some s => if Str.is_empty s then b else a
  | None => b
  end.

(** [x < y] on numbers: false when either side is [NaN]. *)
Definition num_lt (x : num) (y : Q) : bool :=
  match x with
  | NaN => false
  | Fin q => negb (Qle_bool y q)
  end.

(** ** Transfer executor ([src/blockchain.js]) *)

Definition ALPHA_USD : string := "0x20c0000000000000000000000000000000000001".
Definition DECIMALS : nat := 6.
Definition TREASURY : string := "0xDC9B47551734bE984D7Aa2a365251E002f8FF2D7".
Definition FEE_BPS : Z := 130.
Definition MONIBOT_ROUTER : string := "0x78A824fDE7Ee3E69B2e2Ee52d1136EECD76749fc".

(** [parseUnits(value, decimals)] of the viem library: the text must be an
    optional sign, digits, and an optional fraction, or the call throws; the
    fraction is cut to [decimals] digits, rounding half up on the first
    digit cut off. *)
Definition parseUnits (value : string) (decimals : nat) : res Z :=
  let (neg, body) :=
    match value with
    | String c r => if Ascii.eqb c "-" then (true, r) else (false, value)
    | EmptyString => (false, value)
    end in
  let (integer, rest) := Str.span Str.is_digit body in
  let (fraction, tail) :=
    match rest with
    | String c r =>
        if Ascii.eqb c "." then Str.span Str.is_digit r else (EmptyString, rest)
    | EmptyString => (EmptyString, rest)
    end in
  if negb (Str.is_empty tail) then Throw "InvalidDecimalNumberError"
  else
    let kept := substring 0 decimals fraction in
    let round_up :=
      match String.get decimals fraction with
      | Some c => 5 <=? digit_val c
      | None => false
      end in
    let magnitude :=
      digits_val 0 integer * pow10 decimals
      + digits_val 0 kept * pow10 (decimals - String.length kept)
      + (if round_up then 1 else 0) in
    Ok (if neg then - magnitude else magnitude).

Fixpoint strip_zeros (s : string) : string :=
  match s with
  | EmptyString => EmptyString
  | String c r =>
      let r' := strip_zeros r in
      if Str.is_empty r' && Ascii.eqb c "0" then EmptyString else String c r'
  end.

Fixpoint zeros (n : nat) : string :=
  match n with
  | O => EmptyString
  | S n' => String "0" (zeros n')
  end.

(** [formatUnits(value, decimals)] of the viem library. *)
Definition formatUnits (value : Z) (decimals : nat) : string :=
  let digits := string_of_N (Z.abs_N value) in
  let display := zeros (decimals - String.length digits) ++ digits in
  let cut := (String.length display - decimals)%nat in
  let integer := substring 0 cut display in
  let fraction := strip_zeros (substring cut decimals display) in
  (if value <? 0 then "-" else "") ++
  (if Str.is_empty integer then "0" else integer) ++
  (if Str.is_empty fraction then "" else "." ++ fraction).

(** The object [executeGrant] and [executeTransfer] return;
    [executeTransfer] leaves [blockNumber] out. *)
Record TransferResult : Type := {
  txHash : string;
  amount : string;
  fee : string;
  netAmount : string;
  blockNumber_ : option string
}.

Section Blockchain.

Variable env : Env.

(** [await walletClient.writeContract(call)] *)
Definition submit (call : ContractCall) : M string :=
  s <- get ;;
  emit (Submitted call) ;;;
  lift (writeContract env (trace s) call).

(** [await publicClient.waitForTransactionReceipt({ hash, timeout })] *)
Definition wait_receipt (hash : string) (timeout : Z) : M Receipt :=
  emit (Waited hash timeout) ;;;
  lift (waitForTransactionReceipt env hash).

Definition executeGrant (recipientAddress : option string) (amount : num)
    (campaignId : string) : M TransferResult :=
  emit (CallExecuteGrant recipientAddress amount campaignId) ;;;
  amountWei <- lift (parseUnits (toString amount) DECIMALS) ;;
  hash <- submit {| address := MONIBOT_ROUTER;
                    functionName := "executeGrant";
                    to := recipientAddress;
                    value := amountWei;
                    tag := campaignId |} ;;
  receipt <- wait_receipt hash 60000 ;;
  let fee := Z.quot (amountWei * FEE_BPS) 10000 in
  let netAmount := amountWei - fee in
  ret {| txHash := hash;
         amount := formatUnits amountWei DECIMALS;
         fee := formatUnits fee DECIMALS;
         netAmount := formatUnits netAmount DECIMALS;
         blockNumber_ := Some (string_of_Z (blockNumber receipt)) |}.

Definition executeTransfer (recipientAddress : option string) (amount : num)
    (memo : string) : M TransferResult :=
  emit (CallExecuteTransfer recipientAddress amount memo) ;;;
  amountWei <- lift (parseUnits (toString amount) DECIMALS) ;;
  let fee := Z.quot (amountWei * FEE_BPS) 10000 in
  let netAmount := amountWei - fee in
  hash1 <- submit {| address := ALPHA_USD;
                     functionName := "transfer";
                     to := recipientAddress;
                     value := netAmount;
                     tag := "" |} ;;
  (if 0 <? fee then
     submit {| address := ALPHA_USD;
               functionName := "transfer";
               to := Some TREASURY;
               value := fee;
               tag := "" |} ;;;
     ret tt
   else ret tt) ;;;
  ret {| txHash := hash1;
         amount := formatUnits amountWei DECIMALS;
         fee := formatUnits fee DECIMALS;
         netAmount := formatUnits netAmount DECIMALS;
         blockNumber_ := None |}.

Definition getAlphaUsdBalance (address : option string) : M string :=
  try_catch
    (emit (BalanceRead address) ;;;
     balance <- lift (balanceOf env address) ;;
     ret (formatUnits balance DECIMALS))
    (fun _ => ret "0").

End Blockchain.

(** ** Datastore requests *)

Section Datastore.

Variable env : Env.

(** A read: the rows, [null] when the client reports an error, or a throw. *)
Definition db_read {A : Type} (query : State -> A) : M (option A) :=
  fun s =>
    match db_mode env with
    | DbUp => (Ok (Some (query s)), s)
    | DbError => (Ok None, s)
    | DbThrows => (Throw "fetch failed", s)
    end.

(** A write whose answer the caller does not look at. *)
Definition db_write (update : State -> State) : M unit :=
  fun s =>
    match db_mode env with
    | DbUp => (Ok tt, update s)
    | DbError => (Ok tt, s)
    | DbThrows => (Throw "fetch failed", s)
    end.

Definition with_transactions (f : list Tx.t -> list Tx.t) (s : State) : State :=
  {| monibot_transactions := f (monibot_transactions s);
     campaigns := campaigns s;
     profiles := profiles s;
     lastProcessedTweetId := lastProcessedTweetId s;
     trace := trace s;
     cycleCount := cycleCount s;
     processedCount := processedCount s;
     errorCount := errorCount s |}.

(** [supabase.from('monibot_transactions').insert(row)] *)
Definition insert_transaction (row : Tx.t) : M unit :=
  db_write (with_transactions (fun rows => (rows ++ [row])%list)).

(** [.from('monibot_transactions').select('id').eq('tweet_id', id).limit(1)] *)
Definition select_existing (id : N) : M (option (list Tx.t)) :=
  db_read (fun s =>
    firstn 1 (filter (fun r => N.eqb (Tx.tweet_id r) id) (monibot_transactions s))).

(** [existing?.length] as a condition *)
Definition has_rows {A : Type} (rows : option (list A)) : bool :=
  match rows with
  | Some (_ :: _) => true
  | _ => false
  end.

(** [.single()]: the row when the filter selects exactly one, else [null]. *)
Definition single {A : Type} (rows : list A) : option A :=
  match rows with
  | [row] => Some row
  | _ => None
  end.

Definition flatten {A : Type} (x : option (option A)) : option A :=
  match x with
  | Some y => y
  | None => None
  end.

Definition field_is (f : option string) (v : string) : bool :=
  match f with
  | Some x => (x =? v)%string
  | None => false
  end.

(** [.from('profiles').select(...).eq('x_username', username).single()] *)
Definition select_profile_by_username (username : string) : M (option Profile.t) :=
  rows <- db_read (fun s =>
    single (filter (fun p => field_is (Profile.x_username p) username) (profiles s))) ;;
  ret (flatten rows).

(** [.from('profiles').select(...)
      .or(`pay_tag.eq.${tag},x_username.eq.${tag}`).single()] *)
Definition select_profile_by_tag (tag : string) : M (option Profile.t) :=
  rows <- db_read (fun s =>
    single (filter (fun p => field_is (Profile.pay_tag p) tag
                             || field_is (Profile.x_username p) tag)
                   (profiles s))) ;;
  ret (flatten rows).

End Datastore.

(** ** Direct-command poller ([src/p2p.js]) *)

Section P2P.

Variable env : Env.

Definition NIL_UUID : string := "00000000-0000-0000-0000-000000000000".

Definition logSkip (tweetId : N) (txHash senderTag : string)
    (recipientTag : option string) : M unit :=
  insert_transaction env
    {| Tx.tweet_id := tweetId;
       Tx.chain := "tempo";
       Tx.tx_hash := txHash;
       Tx.sender_id := match js_or (MONIBOT_PROFILE_ID env) (Some NIL_UUID) with
                       | Some x => x | None => NIL_UUID end;
       Tx.receiver_id := match js_or (MONIBOT_PROFILE_ID env) (Some NIL_UUID) with
                         | Some x => x | None => NIL_UUID end;
       Tx.amount := Fin 0;
       Tx.fee := Fin 0;
       Tx.type := p2p_command;
       Tx.status := skipped;
       Tx.payer_pay_tag := Some senderTag;
       Tx.recipient_pay_tag := recipientTag;
       Tx.error_reason := None;
       Tx.campaign_id := None;
       Tx.replied := Some false |}.

(** [tweet.referenced_tweets?.some(r => r.type === 'quoted')] *)
Definition isQuote (tweet : Tweet.t) : bool :=
  match Tweet.referenced_tweets tweet with
  | Some refs => existsb (fun ty => (ty =? "quoted")%string) refs
  | None => false
  end.

(** The body of [for (const recipientTag of parsed.recipients)], run over
    the recipients left, with [successCount] so far. *)
Fixpoint for_each_recipient (tweet : Tweet.t) (author : User.t)
    (senderProfile : Profile.t) (parsed : Parser.Intent)
    (recipients : list string) (successCount : nat) : M nat :=
  match recipients with
  | [] => ret successCount
  | recipientTag :: rest =>
      recipientProfile <- select_profile_by_tag env recipientTag ;;
      match recipientProfile with
      | None =>
          insert_transaction env
            {| Tx.tweet_id := Tweet.id tweet;
               Tx.chain := "tempo";
               Tx.tx_hash := "ERROR_RECIPIENT_NOT_FOUND";
               Tx.sender_id := Profile.id senderProfile;
               Tx.receiver_id := Profile.id senderProfile;
               Tx.amount := Fin (Parser.amount parsed);
               Tx.fee := Fin 0;
               Tx.type := p2p_command;
               Tx.status := failed;
               Tx.payer_pay_tag := Profile.pay_tag senderProfile;
               Tx.recipient_pay_tag := Some recipientTag;
               Tx.error_reason := Some ("No profile for @" ++ recipientTag);
               Tx.campaign_id := None;
               Tx.replied := Some false |} ;;;
          for_each_recipient tweet author senderProfile parsed rest successCount
      | Some recipientProfile =>
          let recipientAddress :=
            js_or (Profile.tempo_address recipientProfile)
                  (Profile.wallet_address recipientProfile) in
          successCount' <-
            try_catch
              (result <- executeTransfer env recipientAddress
                           (Fin (Parser.amount parsed))
                           ("P2P: @" ++ User.username author ++ " → @" ++ recipientTag) ;;
               insert_transaction env
                 {| Tx.tweet_id := Tweet.id tweet;
                    Tx.chain := "tempo";
                    Tx.tx_hash := txHash result;
                    Tx.sender_id := Profile.id senderProfile;
                    Tx.receiver_id := Profile.id recipientProfile;
                    Tx.amount := parseFloat (netAmount result);
                    Tx.fee := parseFloat (fee result);
                    Tx.type := p2p_command;
                    Tx.status := completed;
                    Tx.payer_pay_tag := Profile.pay_tag senderProfile;
                    Tx.recipient_pay_tag := Profile.pay_tag recipientProfile;
                    Tx.error_reason := None;
                    Tx.campaign_id := None;
                    Tx.replied := Some false |} ;;;
               ret (S successCount))
              (fun message =>
               insert_transaction env
                 {| Tx.tweet_id := Tweet.id tweet;
                    Tx.chain := "tempo";
                    Tx.tx_hash := "failed_" ++ string_of_N (now env);
                    Tx.sender_id := Profile.id senderProfile;
                    Tx.receiver_id := Profile.id recipientProfile;
                    Tx.amount := Fin (Parser.amount parsed);
                    Tx.fee := Fin 0;
                    Tx.type := p2p_command;
                    Tx.status := failed;
                    Tx.payer_pay_tag := Profile.pay_tag senderProfile;
                    Tx.recipient_pay_tag := Profile.pay_tag recipientProfile;
                    Tx.error_reason := Some message;
                    Tx.campaign_id := None;
                    Tx.replied := Some false |} ;;;
               ret successCount) ;;
          for_each_recipient tweet author senderProfile parsed rest successCount'
      end
  end.

Definition processP2PCommand (tweet : Tweet.t) (author : User.t) : M bool :=
  existing <- select_existing env (Tweet.id tweet) ;;
  if has_rows existing then ret false
  else if isQuote tweet && negb (Parser.hasDirectCommand (Tweet.text tweet)) then
    logSkip (Tweet.id tweet) "SKIP_QUOTE_NOT_COMMAND" (User.username author) None ;;;
    ret false
  else
    match Parser.parseP2PCommand (Tweet.text tweet) with
    | None =>
        logSkip (Tweet.id tweet) "SKIP_PARSE_FAILED" (User.username author) None ;;;
        ret false
    | Some parsed =>
        senderProfile <- select_profile_by_username env (User.username author) ;;
        match senderProfile with
        | None =>
            logSkip (Tweet.id tweet) "ERROR_SENDER_NOT_FOUND" (User.username author)
                    (hd_error (Parser.recipients parsed)) ;;;
            ret false
        | Some senderProfile =>
            let senderAddress :=
              js_or (Profile.tempo_address senderProfile)
                    (Profile.wallet_address senderProfile) in
            balance <- getAlphaUsdBalance env senderAddress ;;
            let totalNeeded :=
              Qred (Parser.amount parsed
                    * Num.of_nat (List.length (Parser.recipients parsed))) in
            if num_lt (parseFloat balance) totalNeeded then
              insert_transaction env
                {| Tx.tweet_id := Tweet.id tweet;
                   Tx.chain := "tempo";
                   Tx.tx_hash := "ERROR_INSUFFICIENT_BALANCE";
                   Tx.sender_id := Profile.id senderProfile;
                   Tx.receiver_id := Profile.id senderProfile;
                   Tx.amount := Fin totalNeeded;
                   Tx.fee := Fin 0;
                   Tx.type := p2p_command;
                   Tx.status := failed;
                   Tx.payer_pay_tag := Profile.pay_tag senderProfile;
                   Tx.recipient_pay_tag :=
                     Some (Str.join "," (Parser.recipients parsed));
                   Tx.error_reason :=
                     Some ("Balance " ++ balance ++ " < "
                           ++ toString (Fin totalNeeded) ++ " αUSD");
                   Tx.campaign_id := None;
                   Tx.replied := Some false |} ;;;
              ret false
            else
              successCount <-
                for_each_recipient tweet author senderProfile parsed
                                   (Parser.recipients parsed) 0%nat ;;
              ret (0 <? successCount)%nat
        end
    end.

Definition with_cursor (c : option N) (s : State) : State :=
  {| monibot_transactions := monibot_transactions s;
     campaigns := campaigns s;
     profiles := profiles s;
     lastProcessedTweetId := c;
     trace := trace s;
     cycleCount := cycleCount s;
     processedCount := processedCount s;
     errorCount := errorCount s |}.

Definition js_or_id (a b : option N) : option N :=
  match a with
  | Some _ => a
  | None => b
  end.

(** The body of [for (const tweet of mentions.data.data)].  Nothing in it
    throws past its own [try], so the loop is a plain state transformer. *)
Fixpoint for_each_tweet (users : option (list User.t)) (tweets : list Tweet.t)
    (processed : nat) : M nat :=
  match tweets with
  | [] => ret processed
  | tweet :: rest =>
      let author :=
        match users with
        | Some us =>
            find (fun u => (User.id u =? Tweet.author_id tweet)%string) us
        | None => None
        end in
      match author with
      | None => for_each_tweet users rest processed
      | Some author =>
          if negb (Parser.isTempoRelated (Tweet.text tweet)) then
            for_each_tweet users rest processed
          else
            processed' <-
              try_catch
                (result <- processP2PCommand tweet author ;;
                 ret (if result then S processed else processed))
                (fun _ => ret processed) ;;
            for_each_tweet users rest processed'
      end
  end.

Definition pollP2PCommands : M nat :=
  if negb (twitter_client env) then ret 0%nat
  else
    (* the one call that can throw inside the outer [try] comes before the
       loop, so its handler returns the initial count *)
    try_catch
      (s <- get ;;
       mentions <- lift (search_commands env (lastProcessedTweetId s)) ;;
       match data mentions with
       | None => ret 0%nat
       | Some tweets =>
           (fun s => (Ok tt, with_cursor (js_or_id (newest_id mentions)
                                                  (lastProcessedTweetId s)) s)) ;;;
           for_each_tweet (users mentions) tweets 0%nat
       end)
      (fun _ => ret 0%nat).

End P2P.

(** ** Campaign-reply poller ([src/database.js]) *)

Section Campaigns.

Variable env : Env.

Definition with_campaigns (f : list Campaign.t -> list Campaign.t) (s : State) : State :=
  {| monibot_transactions := monibot_transactions s;
     campaigns := f (campaigns s);
     profiles := profiles s;
     lastProcessedTweetId := lastProcessedTweetId s;
     trace := trace s;
     cycleCount := cycleCount s;
     processedCount := processedCount s;
     errorCount := errorCount s |}.

(** [campaign.max_participants &&
     campaign.current_participants >= campaign.max_participants] *)
Definition at_capacity (campaign : Campaign.t) : bool :=
  match Campaign.max_participants campaign with
  | Some m =>
      negb (m =? 0) &&
      (m <=? match Campaign.current_participants campaign with
             | Some c => c
             | None => 0
             end)
  | None => false
  end.

(** [(x || 0) + y] on numbers *)
Definition add_or_zero (x : option num) (y : num) : num :=
  match x, y with
  | Some (Fin a), Fin b => Fin (Qred (a + b))
  | None, Fin b => Fin (Qred b)
  | Some NaN, Fin b => Fin (Qred b)
  | _, NaN => NaN
  end.

(** [.from('campaigns').update({ current_participants, budget_spent })
      .eq('id', campaign.id)]: both values come from the [campaign] object
    read at the start of the cycle. *)
Definition update_campaign (campaign : Campaign.t) : M unit :=
  db_write env (with_campaigns (map (fun c =>
    if (Campaign.id c =? Campaign.id campaign)%string then
      {| Campaign.id := Campaign.id c;
         Campaign.tweet_id := Campaign.tweet_id c;
         Campaign.network := Campaign.network c;
         Campaign.status := Campaign.status c;
         Campaign.grant_amount := Campaign.grant_amount c;
         Campaign.max_participants := Campaign.max_participants c;
         Campaign.current_participants :=
           Some (match Campaign.current_participants campaign with
                 | Some n => n
                 | None => 0
                 end + 1);
         Campaign.budget_spent :=
           Some (add_or_zero (Campaign.budget_spent campaign)
                             (Campaign.grant_amount campaign)) |}
    else c))).

(** How one pass of the body of [for (const reply of replies.data.data)]
    ends: [continue], a grant counted in [processed], or [break]. *)
Inductive Step : Type := Next | Granted | Break.

Definition process_reply (campaign : Campaign.t) (users : list User.t)
    (reply : Tweet.t) : M Step :=
  existing <- select_existing env (Tweet.id reply) ;;
  if has_rows existing then ret Next
  else if at_capacity campaign then ret Break
  else
    match find (fun u => (User.id u =? Tweet.author_id reply)%string) users with
    | None => ret Next
    | Some author =>
        profile <- select_profile_by_username env (User.username author) ;;
        match profile with
        | None =>
            insert_transaction env
              {| Tx.tweet_id := Tweet.id reply;
                 Tx.chain := "tempo";
                 Tx.tx_hash := "skip_no_profile";
                 Tx.sender_id := Campaign.id campaign;
                 Tx.receiver_id := Campaign.id campaign;
                 Tx.amount := Campaign.grant_amount campaign;
                 Tx.fee := Fin 0;
                 Tx.type := grant;
                 Tx.status := skipped;
                 Tx.payer_pay_tag := None;
                 Tx.recipient_pay_tag := None;
                 Tx.error_reason := Some ("No profile for @" ++ User.username author);
                 Tx.campaign_id := None;
                 Tx.replied := None |} ;;;
            ret Next
        | Some profile =>
            let recipientAddress :=
              js_or (Profile.tempo_address profile) (Profile.wallet_address profile) in
            try_catch
              (result <- executeGrant env recipientAddress
                           (Campaign.grant_amount campaign) (Campaign.id campaign) ;;
               insert_transaction env
                 {| Tx.tweet_id := Tweet.id reply;
                    Tx.chain := "tempo";
                    Tx.tx_hash := txHash result;
                    Tx.sender_id := Campaign.id campaign;
                    Tx.receiver_id := Profile.id profile;
                    Tx.amount := Campaign.grant_amount campaign;
                    Tx.fee := parseFloat (fee result);
                    Tx.type := grant;
                    Tx.status := completed;
                    Tx.payer_pay_tag := None;
                    Tx.recipient_pay_tag := Profile.pay_tag profile;
                    Tx.error_reason := None;
                    Tx.campaign_id := Some (Campaign.id campaign);
                    Tx.replied := Some false |} ;;;
               update_campaign campaign ;;;
               ret Granted)
              (fun message =>
               insert_transaction env
                 {| Tx.tweet_id := Tweet.id reply;
                    Tx.chain := "tempo";
                    Tx.tx_hash := "failed_" ++ string_of_N (now env);
                    Tx.sender_id := Campaign.id campaign;
                    Tx.receiver_id := Profile.id profile;
                    Tx.amount := Campaign.grant_amount campaign;
                    Tx.fee := Fin 0;
                    Tx.type := grant;
                    Tx.status := failed;
                    Tx.payer_pay_tag := None;
                    Tx.recipient_pay_tag := None;
                    Tx.error_reason := Some message;
                    Tx.campaign_id := None;
                    Tx.replied := None |} ;;;
               ret Next)
        end
    end.

(** The loop over the replies of one campaign, together with the [catch]
    around it: a throw ends this campaign's loop and keeps the grants
    counted so far. *)
Fixpoint for_each_reply (campaign : Campaign.t) (users : list User.t)
    (replies : list Tweet.t) (processed : nat) (s : State) : nat * State :=
  match replies with
  | [] => (processed, s)
  | reply :: rest =>
      match process_reply campaign users reply s with
      | (Ok Next, s') => for_each_reply campaign users rest processed s'
      | (Ok Granted, s') => for_each_reply campaign users rest (S processed) s'
      | (Ok Break, s') => (processed, s')
      | (Throw _, s') => (processed, s')
      end
  end.

Fixpoint for_each_campaign (cs : list Campaign.t) (processed : nat) (s : State)
    : nat * State :=
  match cs with
  | [] => (processed, s)
  | campaign :: rest =>
      if negb (twitter_client env) then for_each_campaign rest processed s
      else
        match search_replies env (Campaign.tweet_id campaign) with
        | Throw _ => for_each_campaign rest processed s
        | Ok replies =>
            match data replies with
            | None | Some [] => for_each_campaign rest processed s
            | Some (r :: rs) =>
                let us := match users replies with Some us => us | None => [] end in
                let (processed', s') :=
                  for_each_reply campaign us (r :: rs) processed s in
                for_each_campaign rest processed' s'
            end
        end
  end.

(** [.from('campaigns').select('*').eq('network', 'tempo')
      .eq('status', 'active').not('tweet_id', 'is', null)] *)
Definition active_campaigns (s : State) : list Campaign.t :=
  filter (fun c =>
            (Campaign.network c =? "tempo")%string
            && (Campaign.status c =? "active")%string
            && match Campaign.tweet_id c with Some _ => true | None => false end)
         (campaigns s).

Definition processCampaignQueue : M nat :=
  try_catch
    (cs <- db_read env active_campaigns ;;
     match cs with
     | None => throw "error"
     | Some [] => ret 0%nat
     | Some cs => fun s => let (n, s') := for_each_campaign cs 0%nat s in (Ok n, s')
     end)
    (fun _ => ret 0%nat).

End Campaigns.

(** ** Cycle driver ([src/index.js]) *)

Definition bump_cycle (s : State) : State :=
  {| monibot_transactions := monibot_transactions s;
     campaigns := campaigns s;
     profiles := profiles s;
     lastProcessedTweetId := lastProcessedTweetId s;
     trace := trace s;
     cycleCount := S (cycleCount s);
     processedCount := processedCount s;
     errorCount := errorCount s |}.

Definition add_processed (n : nat) (s : State) : State :=
  {| monibot_transactions := monibot_transactions s;
     campaigns := campaigns s;
     profiles := profiles s;
     lastProcessedTweetId := lastProcessedTweetId s;
     trace := trace s;
     cycleCount := cycleCount s;
     processedCount := (processedCount s + n)%nat;
     errorCount := errorCount s |}.

Definition bump_errors (s : State) : State :=
  {| monibot_transactions := monibot_transactions s;
     campaigns := campaigns s;
     profiles := profiles s;
     lastProcessedTweetId := lastProcessedTweetId s;
     trace := trace s;
     cycleCount := cycleCount s;
     processedCount := processedCount s;
     errorCount := S (errorCount s) |}.

(** One firing of the timer, in the environment [env] of that moment.  The
    time stamp [lastPoll] and the console output are left out. *)
Definition pollAndProcess (env : Env) : M unit :=
  (fun s => (Ok tt, bump_cycle s)) ;;;
  try_catch
    (campaignProcessed <- processCampaignQueue env ;;
     p2pProcessed <- pollP2PCommands env ;;
     fun s => (Ok tt, add_processed (campaignProcessed + p2pProcessed) s))
    (fun _ => fun s => (Ok tt, bump_errors s)).

(** ** The specification's vocabulary *)

Module Spec.


(** No [@name] token: nowhere in [s] is an [@] directly followed by a
    character of a handle. *)
Definition no_mention (s : string) : Prop :=
  forall pre c rest, s = pre ++ String "@" (String c rest) -> Str.is_handle c = false.

(** One of the bot's own handles, whatever its case. *)
Definition reserved (name : string) : Prop :=
  Str.toLowerCase name = "monibot" \/ Str.toLowerCase name = "monipay".


(** The ledger rows of one source event. *)
Definition records_for (id : N) (s : State) : list Tx.t :=
  filter (fun r => N.eqb (Tx.tweet_id r) id) (monibot_transactions s).

(** "At most one TransactionRecord exists for the source event [id]." *)
Definition at_most_one (id : N) (s : State) : Prop :=
  (List.length (records_for id s) <= 1)%nat.


(** The address the source computes for a profile,
    [tempo_address || wallet_address]; [None] is where the specification's
    resolver would report not-found. *)
Definition resolve_address (p : Profile.t) : option string :=
  js_or (Profile.tempo_address p) (Profile.wallet_address p).

End Spec.

(** ** Definitions used to state the properties *)

(** The recipient list [parseP2PCommand] builds from a text. *)
Definition recipients_of (text : string) : list string :=
  filter Parser.not_reserved
         (map (fun m => Str.toLowerCase (Parser.slice1 m)) (Parser.mentions text)).

(** The state after [new] rows were appended to the ledger and the events
    [t] to the trace. *)
Definition apply_effects (new : list Tx.t) (t : list Event) (s : State) : State :=
  {| monibot_transactions := monibot_transactions s ++ new;
     campaigns := campaigns s;
     profiles := profiles s;
     lastProcessedTweetId := lastProcessedTweetId s;
     trace := trace s ++ t;
     cycleCount := cycleCount s;
     processedCount := processedCount s;
     errorCount := errorCount s |}.

Definition is_submitted (e : Event) : bool :=
  match e with
  | Submitted _ => true
  | _ => false
  end.

(** Every row of [new] belongs to the source event [id]. *)
Definition for_tweet (id : N) (new : list Tx.t) : Prop :=
  Forall (fun row => Tx.tweet_id row = id) new.

(** The ledger of [s'] is the ledger of [s] with rows added at its end:
    nothing was updated, nothing deleted. *)
Definition Appends (s s' : State) : Prop :=
  exists new, monibot_transactions s' = (monibot_transactions s ++ new)%list.

Definition appends {A : Type} (m : M A) : Prop :=
  forall s, Appends s (snd (m s)).

(** [m] leaves the poller's cursor where it was. *)
Definition keeps_cursor {A : Type} (m : M A) : Prop :=
  forall s, lastProcessedTweetId (snd (m s)) = lastProcessedTweetId s.


(** [env] with another answer to the wait for a receipt. *)
Definition with_receipts (w : string -> res Receipt) (env : Env) : Env :=
  {| db_mode := db_mode env;
     MONIBOT_PROFILE_ID := MONIBOT_PROFILE_ID env;
     now := now env;
     twitter_client := twitter_client env;
     search_commands := search_commands env;
     search_replies := search_replies env;
     writeContract := writeContract env;
     waitForTransactionReceipt := w;
     balanceOf := balanceOf env |}.

(** ** Concrete situations *)

Module Scenario.

Definition alice : Profile.t :=
  {| Profile.id := "p-alice";
     Profile.wallet_address := Some "0xA11CE";
     Profile.tempo_address := None;
     Profile.pay_tag := Some "alice";
     Profile.x_username := Some "alice_x" |}.

Definition erin : Profile.t :=
  {| Profile.id := "p-erin";
     Profile.wallet_address := Some "0xE1";
     Profile.tempo_address := Some "0xE2";
     Profile.pay_tag := Some "erin";
     Profile.x_username := Some "erin_x" |}.

(** A profile with neither address. *)
Definition bob : Profile.t :=
  {| Profile.id := "p-bob";
     Profile.wallet_address := None;
     Profile.tempo_address := None;
     Profile.pay_tag := Some "bob";
     Profile.x_username := Some "bob_x" |}.

Definition carol : Profile.t :=
  {| Profile.id := "p-carol";
     Profile.wallet_address := Some "0xC1";
     Profile.tempo_address := Some "0xC2";
     Profile.pay_tag := Some "carol";
     Profile.x_username := Some "carol_x" |}.

Definition carol_user : User.t :=
  {| User.id := "u-carol"; User.username := "carol_x" |}.

Definition start : State :=
  {| monibot_transactions := [];
     campaigns := [];
     profiles := [alice; erin; bob; carol];
     lastProcessedTweetId := None;
     trace := [];
     cycleCount := 0;
     processedCount := 0;
     errorCount := 0 |}.

Definition tweet (id : N) (text : string) : Tweet.t :=
  {| Tweet.id := id;
     Tweet.text := text;
     Tweet.author_id := "u-carol";
     Tweet.referenced_tweets := None |}.


(** A social-read collaborator: a search with a [since_id] watermark over
    the posts of [timeline].  It returns the posts whose id is above the
    watermark and, as [newest_id], the largest id returned. *)
Definition search_since (timeline : list Tweet.t) (since : option N) : SearchResult :=
  let fresh :=
    filter (fun t => match since with
                     | Some i => N.ltb i (Tweet.id t)
                     | None => true
                     end) timeline in
  match fresh with
  | [] => {| data := None; newest_id := None; users := None |}
  | _ :: _ =>
      {| data := Some fresh;
         newest_id := Some (fold_right (fun t m => N.max (Tweet.id t) m) 0%N fresh);
         users := Some [carol_user] |}
  end.

(** A chain that takes every call. *)
Definition accept_all (_ : list Event) (call : ContractCall) : res string :=
  Ok ("0xtx" ++ string_of_Z (value call)).

(** A chain client that refuses a call without a recipient address. *)
Definition accept_addressed (_ : list Event) (call : ContractCall) : res string :=
  match to call with
  | Some a => Ok ("0xtx-" ++ a)
  | None => Throw "Address is invalid."
  end.

Definition env (mode : DbMode) (balance : Z)
    (chain : list Event -> ContractCall -> res string) (confirmed : bool)
    (timeline : list Tweet.t) : Env :=
  {| db_mode := mode;
     MONIBOT_PROFILE_ID := None;
     now := 1700000000000%N;
     twitter_client := true;
     search_commands := fun since => Ok (search_since timeline since);
     search_replies := fun _ => Ok {| data := None; newest_id := None; users := None |};
     writeContract := chain;
     waitForTransactionReceipt :=
       fun _ => if confirmed
                then Ok {| blockNumber := 7; reverted := false |}
                else Throw "Timed out while waiting for transaction";
     balanceOf := fun a => match a with
                           | Some _ => Ok balance
                           | None => Throw "invalid address"
                           end |}.

Definition each_to_two : Tweet.t :=
  tweet 100 "@monibot send $5 each to @alice @erin on tempo".


Definition to_bob : Tweet.t :=
  tweet 102 "@monibot send $5 to @bob on tempo".


(** As [healthy] below, but no transaction is ever confirmed. *)
Definition unconfirmed : Env := env DbUp 20000000 accept_all false [].

(** As [healthy] below, with a chain client that wants an address. *)
Definition strict : Env := env DbUp 20000000 accept_addressed true [].

(** A reader of balances that is out of order. *)
Definition no_balance : Env :=
  {| db_mode := DbUp;
     MONIBOT_PROFILE_ID := None;
     now := 1700000000000%N;
     twitter_client := true;
     search_commands := fun _ => Ok {| data := None; newest_id := None; users := None |};
     search_replies := fun _ => Ok {| data := None; newest_id := None; users := None |};
     writeContract := accept_all;
     waitForTransactionReceipt := fun _ => Ok {| blockNumber := 7; reverted := false |};
     balanceOf := fun _ => Throw "HTTP request failed" |}.

(** The datastore answers every request with an error, or throws. *)
Definition db_down (timeline : list Tweet.t) : Env :=
  env DbError 20000000 accept_all true timeline.

Definition db_throwing (timeline : list Tweet.t) : Env :=
  env DbThrows 20000000 accept_all true timeline.



(** Datastore up, a chain that takes and confirms everything, a sender
    balance of 20. *)
Definition healthy (timeline : list Tweet.t) : Env :=
  env DbUp 20000000 accept_all true timeline.

(** The state after [carol_user]'s post [t] was processed in [e]. *)
Definition after (e : Env) (t : Tweet.t) (s : State) : State :=
  snd (processP2PCommand e t carol_user s).

End Scenario.

(** ** Batch grants ([src/blockchain.js]) *)

(** An entry [{ address, amount }] of the list [executeBatchGrants] takes. *)
Module Grantee.
Record t : Type := {
  address : option string;
  amount : num
}.
End Grantee.

(** An entry of the list [executeBatchGrants] returns:
    [{ ...result, recipient, success: true }] or
    [{ recipient, success: false, error }]. *)
Module Batch.
Record t : Type := {
  result : option TransferResult;
  recipient : option string;
  success : bool;
  error : option string
}.
End Batch.

Section BatchGrants.

Variable env : Env.



End BatchGrants.

(** ** Definitions used to state the further properties *)

(** Every character of [s] satisfies [p]. *)
Fixpoint all_chars (p : ascii -> bool) (s : string) : bool :=
  match s with
  | EmptyString => true
  | String c r => p c && all_chars p r
  end.

(** [a-z0-9_-] *)
Definition is_tag_char (c : ascii) : bool :=
  Str.is_lower c || Str.is_digit c
  || (Str.code c =? 95)%nat || (Str.code c =? 45)%nat.

Definition is_completed (r : Tx.t) : bool :=
  match Tx.status r with
  | completed => true
  | _ => false
  end.

(** A row written after the executor was called: completed, or failed with
    the hash [failed_<time>]. *)
Definition transfer_row (r : Tx.t) : bool :=
  is_completed r || prefix "failed_" (Tx.tx_hash r).

Definition is_transfer_call (e : Event) : bool :=
  match e with
  | CallExecuteTransfer _ _ _ => true
  | _ => false
  end.

Definition is_grant_call (e : Event) : bool :=
  match e with
  | CallExecuteGrant _ _ _ => true
  | _ => false
  end.

(** [m] relates every state to the state it leaves, under [R]. *)
Definition keeps {A : Type} (R : State -> State -> Prop) (m : M A) : Prop :=
  forall s, R s (snd (m s)).

(** The counters of the health endpoint and the profiles are those of
    [s]. *)
Definition same_counters (s s' : State) : Prop :=
  cycleCount s' = cycleCount s
  /\ processedCount s' = processedCount s
  /\ errorCount s' = errorCount s
  /\ profiles s' = profiles s.

(** A cursor that was set is still set. *)
Definition cursor_stays_set (s s' : State) : Prop :=
  lastProcessedTweetId s <> None -> lastProcessedTweetId s' <> None.


(** Nothing but the cursor and the counters differs between [s] and [s']. *)
Definition nothing_happened (s s' : State) : Prop :=
  monibot_transactions s' = monibot_transactions s
  /\ campaigns s' = campaigns s
  /\ trace s' = trace s.

(** A chain whose fee leg fails: it takes every call but one to the
    treasury. *)
Definition refuse_treasury (_ : list Event) (call : ContractCall) : res string :=
  match to call with
  | Some a => if (a =? TREASURY)%string then Throw "nonce too low"
              else Ok ("0xtx-" ++ a)
  | None => Throw "Address is invalid."
  end.

(** A chain that takes calls to Alice only. *)
Definition only_alice (_ : list Event) (call : ContractCall) : res string :=
  match to call with
  | Some a => if (a =? "0xA11CE")%string then Ok "0xtx-alice"
              else Throw "execution reverted"
  | None => Throw "Address is invalid."
  end.

(** Datastore up, sender balance 20, the chain [refuse_treasury]. *)
Definition fee_leg_fails : Env :=
  Scenario.env DbUp 20000000 refuse_treasury true [].

Definition sample_campaign : Campaign.t :=
  {| Campaign.id := "c1";
     Campaign.tweet_id := Some 1%N;
     Campaign.network := "tempo";
     Campaign.status := "active";
     Campaign.grant_amount := Fin 2;
     Campaign.max_participants := Some 1;
     Campaign.current_participants := Some 0;
     Campaign.budget_spent := None |}.

Definition full_campaign : Campaign.t :=
  {| Campaign.id := "c2";
     Campaign.tweet_id := Some 2%N;
     Campaign.network := "tempo";
     Campaign.status := "active";
     Campaign.grant_amount := Fin 2;
     Campaign.max_participants := Some 5;
     Campaign.current_participants := Some 5;
     Campaign.budget_spent := Some (Fin 10) |}.

Definition erin_user : User.t :=
  {| User.id := "u-erin"; User.username := "erin_x" |}.

Definition reply (id : N) (author : string) : Tweet.t :=
  {| Tweet.id := id;
     Tweet.text := "count me in";
     Tweet.author_id := author;
     Tweet.referenced_tweets := None |}.

(** A reply search that throws for the post 9 and answers with two replies
    for any other. *)
Definition flaky_replies (id : option N) : res SearchResult :=
  match id with
  | Some 9%N => Throw "Too Many Requests"
  | _ => Ok {| data := Some [reply 201 "u-carol"; reply 202 "u-erin"];
               newest_id := Some 202%N;
               users := Some [Scenario.carol_user; erin_user] |}
  end.

Definition flaky_env : Env :=
  {| db_mode := DbUp;
     MONIBOT_PROFILE_ID := None;
     now := 1700000000000%N;
     twitter_client := true;
     search_commands := fun _ => Ok {| data := None; newest_id := None; users := None |};
     search_replies := flaky_replies;
     writeContract := Scenario.accept_all;
     waitForTransactionReceipt := fun _ => Ok {| blockNumber := 7; reverted := false |};
     balanceOf := fun _ => Ok 0 |}.

Definition broken_campaign : Campaign.t :=
  {| Campaign.id := "c9";
     Campaign.tweet_id := Some 9%N;
     Campaign.network := "tempo";
     Campaign.status := "active";
     Campaign.grant_amount := Fin 2;
     Campaign.max_participants := None;
     Campaign.current_participants := None;
     Campaign.budget_spent := None |}.

(** What one pass over a reply adds to [processed]. *)
Definition granted (st : Step) : nat :=
  match st with
  | Granted => 1%nat
  | _ => 0%nat
  end.

Definition with_campaign_rows (cs : list Campaign.t) (s : State) : State :=
  with_campaigns (fun _ => cs) s.

(** * Properties *)

(** ** The parser *)

Section ParserFacts.

Import Str Parser.

Lemma span_split (p : ascii -> bool) (s : string) :
  forall a b, span p s = (a, b) -> s = a ++ b.
Proof.
  induction s as [|c s IH]; simpl; intros a b H.
  - inversion H; reflexivity.
  - destruct (p c).
    + destruct (span p s) as [a' b'] eqn:E. inversion H; subst.
      simpl. f_equal. apply IH. reflexivity.
    + inversion H; reflexivity.
Qed.

Lemma span_head (p : ascii -> bool) (c : ascii) (s : string) :
  is_empty (fst (span p (String c s))) = negb (p c).
Proof.
  simpl. destruct (p c); [destruct (span p s)|]; reflexivity.
Qed.

Lemma span_length (p : ascii -> bool) (s : string) :
  forall a b, span p s = (a, b) -> (String.length b <= String.length s)%nat.
Proof.
  induction s as [|c s IH]; simpl; intros a b H.
  - inversion H; simpl; lia.
  - destruct (p c).
    + destruct (span p s) as [a' b'] eqn:E. inversion H; subst.
      specialize (IH _ _ eq_refl). lia.
    + inversion H; simpl; lia.
Qed.


Lemma match_number_head (s m : string) :
  match_number s = Some m ->
  exists c r, m = String c r /\ is_digit c = true.
Proof.
  unfold match_number. destruct s as [|c s]; simpl; [discriminate|].
  destruct (is_digit c) eqn:D; [|simpl; discriminate].
  destruct (span is_digit s) as [a b]. simpl.
  destruct b as [|d r].
  - intros H; inversion H; eauto.
  - destruct (Ascii.eqb d ".").
    + destruct (span is_digit r) as [fp ?].
      destruct (is_empty fp); intros H; inversion H; simpl; eauto.
    + intros H; inversion H; eauto.
Qed.

Lemma amountMatch_head (s m : string) :
  amountMatch s = Some m ->
  exists c r, m = String c r /\ is_digit c = true.
Proof.
  induction s as [|a s IH]; simpl; [discriminate|].
  destruct (Ascii.eqb a "$"); [|exact IH].
  destruct (match_number s) as [m'|] eqn:E; [|exact IH].
  intros H; inversion H; subst. eapply match_number_head; eauto.
Qed.


Lemma parseFloat_digit_head (c : ascii) (r : string) :
  is_digit c = true -> exists q, parseFloat (String c r) = Fin q.
Proof.
  intros D. unfold parseFloat.
  destruct (Ascii.eqb_spec c "-") as [->|_]; [discriminate D|].
  pose proof (span_head is_digit c r) as E. rewrite D in E. cbn [negb] in E.
  destruct (span is_digit (String c r)) as [ip rest]. cbn [fst] in E. rewrite E.
  simpl. eauto.
Qed.


Lemma mentions_from_nil (s : string) :
  Spec.no_mention s -> forall fuel, mentions_from fuel s = [].
Proof.
  intros H fuel. revert s H.
  induction fuel as [|fuel IH]; intros s H; simpl; [reflexivity|].
  destruct s as [|a s]; [reflexivity|].
  assert (T : Spec.no_mention s).
  { intros pre c rest E. apply (H (String a pre) c rest). simpl. now rewrite E. }
  destruct (Ascii.eqb_spec a "@") as [->|_]; [|apply IH; exact T].
  destruct s as [|c rest].
  - simpl. apply IH; exact T.
  - pose proof (span_head is_handle c rest) as E.
    rewrite (H "" c rest eq_refl) in E. cbn [negb] in E.
    destruct (span is_handle (String c rest)) as [name tl]. cbn [fst] in E.
    rewrite E. apply IH; exact T.
Qed.

Lemma mentions_from_found (fuel : nat) :
  forall s, (String.length s <= fuel)%nat ->
            mentions_from fuel s = [] -> Spec.no_mention s.
Proof.
  induction fuel as [|fuel IH]; intros s L H pre c rest E.
  - destruct s; [destruct pre; discriminate | simpl in L; lia].
  - destruct s as [|a s]; [destruct pre; discriminate|].
    simpl in L, H.
    destruct pre as [|b pre]; simpl in E; inversion E; subst.
    + rewrite Ascii.eqb_refl in H.
      pose proof (span_head is_handle c rest) as D.
      destruct (span is_handle (String c rest)) as [name tl]. cbn [fst] in D.
      destruct (is_empty name); [|discriminate].
      destruct (is_handle c); [discriminate|reflexivity].
    + assert (T : mentions_from fuel (pre ++ String "@" (String c rest)) = []).
      { destruct (Ascii.eqb b "@"); [|exact H].
        destruct (span is_handle _) as [name tl].
        destruct (is_empty name); [exact H|discriminate]. }
      apply (IH _ (le_S_n _ _ L) T pre c rest eq_refl).
Qed.

Lemma mentions_nil_iff (text : string) :
  mentions text = [] <-> Spec.no_mention text.
Proof.
  unfold mentions. split.
  - apply mentions_from_found. lia.
  - intros H. apply mentions_from_nil. exact H.
Qed.

(** The fuel of [mentions] never runs out: any larger amount gives the same
    matches. *)
Lemma mentions_from_enough (f1 : nat) :
  forall f2 s,
    (String.length s <= f1)%nat -> (String.length s <= f2)%nat ->
    mentions_from f1 s = mentions_from f2 s.
Proof.
  induction f1 as [|f1 IH]; intros f2 s L1 L2.
  - destruct s; [|simpl in L1; lia]. destruct f2; reflexivity.
  - destruct f2 as [|f2]; [destruct s; [reflexivity|simpl in L2; lia]|].
    destruct s as [|a s]; [reflexivity|].
    cbn [mentions_from]. cbn [String.length] in L1, L2.
    apply le_S_n in L1. apply le_S_n in L2.
    destruct (Ascii.eqb a "@"); [|apply IH; assumption].
    destruct (span is_handle s) as [name rest] eqn:Sp.
    pose proof (span_length is_handle s name rest Sp) as L.
    destruct (is_empty name); [apply IH; assumption|].
    f_equal. apply IH; lia.
Qed.

Lemma not_reserved_iff (name : string) :
  not_reserved (toLowerCase name) = true <-> ~ Spec.reserved name.
Proof.
  unfold not_reserved, Spec.reserved.
  destruct (String.eqb_spec (toLowerCase name) "monibot") as [E1|N1];
    destruct (String.eqb_spec (toLowerCase name) "monipay") as [E2|N2];
    simpl; split; intros H; try discriminate; try reflexivity;
    try (exfalso; apply H; tauto); tauto.
Qed.



Lemma recipients_of_In (text r : string) :
  In r (recipients_of text) <->
  exists m, In m (mentions text) /\ r = toLowerCase (slice1 m)
            /\ ~ Spec.reserved (slice1 m).
Proof.
  unfold recipients_of. rewrite filter_In, in_map_iff. split.
  - intros [[m [<- I]] R]. exists m. repeat split; auto.
    now apply not_reserved_iff.
  - intros [m [I [-> R]]]. split; [eauto|]. now apply not_reserved_iff.
Qed.

Lemma Qle_bool_false (x y : Q) : Qle_bool x y = false <-> (y < x)%Q.
Proof.
  split; intros H.
  - apply Qnot_le_lt. intros L. apply Qle_bool_iff in L. congruence.
  - destruct (Qle_bool x y) eqn:E; [|reflexivity].
    apply Qle_bool_iff in E. exfalso. eapply Qlt_not_le; eauto.
Qed.

(** What [parseP2PCommand] computes, case by case. *)
Lemma parseP2PCommand_cases (text : string) :
  match parseP2PCommand text with
  | None =>
      amountMatch (toLowerCase text) = None
      \/ (exists m q, amountMatch (toLowerCase text) = Some m
                      /\ parseFloat m = Fin q /\ (q <= 0 \/ 10000 < q)%Q)
      \/ recipients_of text = []
  | Some i =>
      (exists m, amountMatch (toLowerCase text) = Some m
                 /\ parseFloat m = Fin (amount i))
      /\ (0 < amount i)%Q /\ (amount i <= 10000)%Q
      /\ recipients i = recipients_of text /\ recipients_of text <> []
      /\ isEach i = includes (toLowerCase text) "each"
  end.
Proof.
  unfold parseP2PCommand. fold (recipients_of text).
  destruct (amountMatch (toLowerCase text)) as [m|] eqn:A; [|now left].
  destruct (amountMatch_head _ _ A) as [c [r [-> D]]].
  destruct (parseFloat_digit_head c r D) as [q P]. rewrite P.
  destruct (Qle_bool q 0) eqn:L0; simpl.
  { right; left. exists (String c r), q. repeat split; auto.
    left. now apply Qle_bool_iff. }
  destruct (Qle_bool q 10000) eqn:L1; simpl.
  2:{ right; left. exists (String c r), q. repeat split; auto.
      right. now apply Qle_bool_false. }
  destruct (recipients_of text) as [|r0 rs] eqn:R; simpl.
  { now right; right. }
  repeat split; simpl; eauto.
  - now apply Qle_bool_false.
  - now apply Qle_bool_iff.
  - discriminate.
Qed.

End ParserFacts.


Example parse_send :
  Parser.parseP2PCommand "@monibot send $5 to @alice on tempo"
  = Some {| Parser.amount := 5; Parser.recipients := ["alice"];
            Parser.isEach := false |}.
Proof. reflexivity. Qed.

Example parse_each :
  Parser.parseP2PCommand "@MoniBot pay @A $1.50 each, @b-2 too"
  = Some {| Parser.amount := 3 # 2; Parser.recipients := ["a"; "b-2"];
            Parser.isEach := true |}.
Proof. reflexivity. Qed.

Example parse_nothing : Parser.parseP2PCommand "hello world" = None.
Proof. reflexivity. Qed.

Example parse_zero : Parser.parseP2PCommand "@monibot send $0 to @a" = None.
Proof. reflexivity. Qed.

Example parse_too_much : Parser.parseP2PCommand "@monibot send $999999 to @a" = None.
Proof. reflexivity. Qed.

Example parse_only_the_bot : Parser.parseP2PCommand "@MONIBOT send $5 to @MoniPay" = None.
Proof. reflexivity. Qed.


(** ** Effects of the primitives *)

Section Effects.

Variable env : Env.

Lemma apply_effects_nil (s : State) : apply_effects [] [] s = s.
Proof. destruct s; unfold apply_effects; simpl. now rewrite !app_nil_r. Qed.

Lemma apply_effects_compose (n1 n2 : list Tx.t) (t1 t2 : list Event) (s : State) :
  apply_effects n2 t2 (apply_effects n1 t1 s) = apply_effects (n1 ++ n2) (t1 ++ t2) s.
Proof. unfold apply_effects; simpl. now rewrite !app_assoc. Qed.

Lemma bind_ok {A B : Type} (m : M A) (k : A -> M B) (s s' : State) (a : A) :
  m s = (Ok a, s') -> bind m k s = k a s'.
Proof. unfold bind. now intros ->. Qed.

Lemma bind_throw {A B : Type} (m : M A) (k : A -> M B) (s s' : State) (e : string) :
  m s = (Throw e, s') -> bind m k s = (Throw e, s').
Proof. unfold bind. now intros ->. Qed.

Lemma emit_effect (e : Event) (s : State) :
  emit e s = (Ok tt, apply_effects [] [e] s).
Proof. unfold emit, apply_effects. now rewrite app_nil_r. Qed.

Lemma submit_effect (call : ContractCall) (s : State) :
  submit env call s = (writeContract env (trace s) call, apply_effects [] [Submitted call] s).
Proof.
  unfold submit, get. unfold bind at 1. cbn beta iota.
  erewrite bind_ok by apply emit_effect. reflexivity.
Qed.

Lemma executeTransfer_effect (a : option string) (am : num) (m : string) (s : State) :
  exists r t,
    executeTransfer env a am m s
    = (r, apply_effects [] (CallExecuteTransfer a am m :: t) s)
    /\ forallb is_submitted t = true.
Proof.
  unfold executeTransfer.
  erewrite bind_ok by apply emit_effect.
  unfold lift at 1. unfold bind at 1.
  destruct (parseUnits (toString am) DECIMALS) as [w|e].
  2:{ exists (Throw e), []. split; reflexivity. }
  unfold bind at 1. rewrite submit_effect.
  rewrite apply_effects_compose. simpl app.
  destruct (writeContract env _ _) as [h|e].
  2:{ eexists (Throw e), [_]. split; reflexivity. }
  destruct (0 <? Z.quot (w * FEE_BPS) 10000).
  - unfold bind at 1. unfold bind at 1. rewrite submit_effect.
    rewrite apply_effects_compose. simpl app.
    destruct (writeContract env _ _) as [h2|e].
    + eexists (Ok _), [_; _]. split; reflexivity.
    + eexists (Throw e), [_; _]. split; reflexivity.
  - unfold bind at 1. unfold ret at 1.
    eexists (Ok _), [_]. split; reflexivity.
Qed.

Lemma executeGrant_effect (a : option string) (am : num) (c : string) (s : State) :
  exists r t,
    executeGrant env a am c s
    = (r, apply_effects [] (CallExecuteGrant a am c :: t) s).
Proof.
  unfold executeGrant.
  erewrite bind_ok by apply emit_effect.
  unfold lift at 1. unfold bind at 1.
  destruct (parseUnits (toString am) DECIMALS) as [w|e].
  2:{ exists (Throw e), []. reflexivity. }
  unfold bind at 1. rewrite submit_effect.
  rewrite apply_effects_compose. simpl app.
  destruct (writeContract env _ _) as [h|e].
  2:{ eexists (Throw e), [_]. reflexivity. }
  unfold wait_receipt. unfold bind at 1.
  erewrite bind_ok by apply emit_effect.
  rewrite apply_effects_compose. simpl app.
  unfold lift. destruct (waitForTransactionReceipt env h) as [rc|e].
  - eexists (Ok _), [_; _]. reflexivity.
  - eexists (Throw e), [_; _]. reflexivity.
Qed.

Lemma getAlphaUsdBalance_effect (a : option string) (s : State) :
  getAlphaUsdBalance env a s
  = (Ok match balanceOf env a with
        | Ok b => formatUnits b DECIMALS
        | Throw _ => "0"
        end,
     apply_effects [] [BalanceRead a] s).
Proof.
  unfold getAlphaUsdBalance, try_catch.
  erewrite bind_ok by apply emit_effect.
  unfold lift, bind, ret. destruct (balanceOf env a); reflexivity.
Qed.

Lemma insert_transaction_effect (row : Tx.t) (s : State) :
  insert_transaction env row s
  = match db_mode env with
    | DbUp => (Ok tt, apply_effects [row] [] s)
    | DbError => (Ok tt, s)
    | DbThrows => (Throw "fetch failed", s)
    end.
Proof.
  unfold insert_transaction, db_write.
  destruct (db_mode env); try reflexivity.
  unfold with_transactions, apply_effects. now rewrite app_nil_r.
Qed.

End Effects.

(** ** The recipient loop *)

Section Processing.

Variable env : Env.

Lemma select_profile_by_tag_effect (tag : string) (s : State) :
  select_profile_by_tag env tag s
  = match db_mode env with
    | DbUp =>
        (Ok (single (filter (fun p => field_is (Profile.pay_tag p) tag
                                      || field_is (Profile.x_username p) tag)
                            (profiles s))), s)
    | DbError => (Ok None, s)
    | DbThrows => (Throw "fetch failed", s)
    end.
Proof.
  unfold select_profile_by_tag, db_read, bind, ret.
  destruct (db_mode env); reflexivity.
Qed.

Lemma select_profile_by_username_effect (username : string) (s : State) :
  select_profile_by_username env username s
  = match db_mode env with
    | DbUp =>
        (Ok (single (filter (fun p => field_is (Profile.x_username p) username)
                            (profiles s))), s)
    | DbError => (Ok None, s)
    | DbThrows => (Throw "fetch failed", s)
    end.
Proof.
  unfold select_profile_by_username, db_read, bind, ret.
  destruct (db_mode env); reflexivity.
Qed.

Lemma select_existing_effect (id : N) (s : State) :
  select_existing env id s
  = match db_mode env with
    | DbUp => (Ok (Some (firstn 1 (Spec.records_for id s))), s)
    | DbError => (Ok None, s)
    | DbThrows => (Throw "fetch failed", s)
    end.
Proof.
  unfold select_existing, db_read. destruct (db_mode env); reflexivity.
Qed.

Lemma has_rows_firstn {A : Type} (l : list A) :
  has_rows (Some (firstn 1 l)) = match l with [] => false | _ :: _ => true end.
Proof. destruct l; reflexivity. Qed.

Lemma for_each_recipient_effect (tweet : Tweet.t) (author : User.t)
    (sp : Profile.t) (parsed : Parser.Intent) (rs : list string) :
  forall (n : nat) (s : State),
  exists r new t,
    for_each_recipient env tweet author sp parsed rs n s = (r, apply_effects new t s)
    /\ for_tweet (Tweet.id tweet) new
    /\ (List.length new <= List.length rs)%nat
    /\ (db_mode env = DbUp ->
        (exists n', r = Ok n' /\ (n <= n' <= n + List.length rs)%nat)
        /\ List.length new = List.length rs).
Proof.
  induction rs as [|tag rest IH]; intros n s.
  - exists (Ok n), [], []. rewrite apply_effects_nil. simpl.
    repeat split; auto; try constructor; try lia.
    exists n. split; auto; lia.
  - cbn [for_each_recipient]. unfold bind at 1.
    rewrite select_profile_by_tag_effect.
    destruct (db_mode env) eqn:Mode.
    + destruct (single _) as [rp|].
      * unfold bind at 1. unfold try_catch. unfold bind at 1.
        destruct (executeTransfer_effect env
                    (js_or (Profile.tempo_address rp) (Profile.wallet_address rp))
                    (Fin (Parser.amount parsed))
                    ("P2P: @" ++ User.username author ++ " → @" ++ tag) s)
          as [r [t [E _]]].
        rewrite E. destruct r as [res|msg].
        -- unfold bind at 1. rewrite insert_transaction_effect, Mode.
           unfold ret at 1. rewrite apply_effects_compose.
           match goal with
           | |- context [for_each_recipient _ _ _ _ _ _ ?k ?st] =>
               destruct (IH k st) as [r' [new [t' [E' [F [L U]]]]]]
           end.
           rewrite E', apply_effects_compose.
           eexists r', (_ :: new), _. split; [reflexivity|].
           split; [constructor; [reflexivity|exact F]|].
           split; [simpl; lia|].
           intros _. destruct (U eq_refl) as [[n' [-> B]] L'].
           split; [exists n'; split; [reflexivity|simpl; lia]|simpl; lia].
        -- unfold bind at 1. rewrite insert_transaction_effect, Mode.
           unfold ret at 1. rewrite apply_effects_compose.
           match goal with
           | |- context [for_each_recipient _ _ _ _ _ _ ?k ?st] =>
               destruct (IH k st) as [r' [new [t' [E' [F [L U]]]]]]
           end.
           rewrite E', apply_effects_compose.
           eexists r', (_ :: new), _. split; [reflexivity|].
           split; [constructor; [reflexivity|exact F]|].
           split; [simpl; lia|].
           intros _. destruct (U eq_refl) as [[n' [-> B]] L'].
           split; [exists n'; split; [reflexivity|simpl; lia]|simpl; lia].
      * unfold bind at 1. rewrite insert_transaction_effect, Mode.
        destruct (IH n (apply_effects
                          [{| Tx.tweet_id := Tweet.id tweet;
                              Tx.chain := "tempo";
                              Tx.tx_hash := "ERROR_RECIPIENT_NOT_FOUND";
                              Tx.sender_id := Profile.id sp;
                              Tx.receiver_id := Profile.id sp;
                              Tx.amount := Fin (Parser.amount parsed);
                              Tx.fee := Fin 0;
                              Tx.type := p2p_command;
                              Tx.status := failed;
                              Tx.payer_pay_tag := Profile.pay_tag sp;
                              Tx.recipient_pay_tag := Some tag;
                              Tx.error_reason := Some ("No profile for @" ++ tag);
                              Tx.campaign_id := None;
                              Tx.replied := Some false |}] [] s))
          as [r' [new [t' [E' [F [L U]]]]]].
        rewrite E', apply_effects_compose.
        eexists r', (_ :: new), _. split; [reflexivity|].
        split; [constructor; [reflexivity|exact F]|].
        split; [simpl; lia|].
        intros _. destruct (U eq_refl) as [[n' [-> B]] L'].
        split; [exists n'; split; [reflexivity|simpl; lia]|simpl; lia].
    + unfold bind at 1. rewrite insert_transaction_effect, Mode.
      destruct (IH n s) as [r' [new [t' [E' [F [L U]]]]]].
      rewrite E'. exists r', new, t'. split; [reflexivity|].
      split; [exact F|]. split; [simpl; lia|]. intros; discriminate.
    + exists (Throw "fetch failed"), [], []. rewrite apply_effects_nil.
      split; [reflexivity|]. split; [constructor|].
      split; [simpl; lia|]. intros; discriminate.
Qed.

Lemma logSkip_effect (id : N) (h tag : string) (rt : option string) (s : State) :
  exists row,
    Tx.tweet_id row = id /\ Tx.status row = skipped /\ Tx.tx_hash row = h
    /\ Tx.error_reason row = None
    /\ logSkip env id h tag rt s
       = match db_mode env with
         | DbUp => (Ok tt, apply_effects [row] [] s)
         | DbError => (Ok tt, s)
         | DbThrows => (Throw "fetch failed", s)
         end.
Proof.
  unfold logSkip. eexists. rewrite insert_transaction_effect.
  repeat split; reflexivity.
Qed.

(** What one run of [processP2PCommand] does to the state, whatever the
    datastore's mood. *)
Lemma processP2PCommand_effect (tweet : Tweet.t) (author : User.t) (s : State) :
  exists r new t,
    processP2PCommand env tweet author s = (r, apply_effects new t s)
    /\ for_tweet (Tweet.id tweet) new
    /\ (List.length new
        <= Nat.max 1 (List.length (recipients_of (Tweet.text tweet))))%nat
    /\ (db_mode env = DbUp ->
        (exists b, r = Ok b)
        /\ (Spec.records_for (Tweet.id tweet) s <> [] ->
            new = [] /\ t = [] /\ r = Ok false)
        /\ (Spec.records_for (Tweet.id tweet) s = [] -> (1 <= List.length new)%nat)).
Proof.
  unfold processP2PCommand. unfold bind at 1.
  rewrite select_existing_effect.
  destruct (db_mode env) eqn:Mode.
  - (* the datastore answers *)
    rewrite has_rows_firstn.
    destruct (Spec.records_for (Tweet.id tweet) s) as [|row0 rows] eqn:R.
    2:{ exists (Ok false), [], []. rewrite apply_effects_nil.
        split; [reflexivity|]. split; [constructor|]. split; [cbn [List.length]; lia|].
        intros _. split; [eauto|]. split; [auto|discriminate]. }
    assert (One : forall h tag rt,
      exists r new t,
        bind (logSkip env (Tweet.id tweet) h tag rt) (fun _ => ret false) s
        = (r, apply_effects new t s)
        /\ for_tweet (Tweet.id tweet) new
        /\ (List.length new
            <= Nat.max 1 (List.length (recipients_of (Tweet.text tweet))))%nat
        /\ (DbUp = DbUp ->
            (exists b, r = Ok b)
            /\ (@nil Tx.t <> [] -> new = [] /\ t = [] /\ r = Ok false)
            /\ (@nil Tx.t = [] -> (1 <= List.length new)%nat))).
    { intros h tag rt. unfold bind.
      destruct (logSkip_effect (Tweet.id tweet) h tag rt s) as [row [I [_ [_ [_ E]]]]].
      rewrite E, Mode. exists (Ok false), [row], []. split; [reflexivity|].
      split; [constructor; [exact I|constructor]|].
      split; [cbn [List.length]; lia|]. intros _. split; [eauto|].
      split; [intros C; contradiction|intros _; cbn [List.length]; lia]. }
    destruct (isQuote tweet && negb (Parser.hasDirectCommand (Tweet.text tweet))).
    { apply One. }
    pose proof (parseP2PCommand_cases (Tweet.text tweet)) as PC.
    destruct (Parser.parseP2PCommand (Tweet.text tweet)) as [parsed|].
    2:{ apply One. }
    destruct PC as [_ [_ [_ [RE [NE _]]]]].
    unfold bind at 1. rewrite select_profile_by_username_effect, Mode.
    destruct (single _) as [sp|].
    2:{ apply One. }
    unfold bind at 1. rewrite getAlphaUsdBalance_effect.
    destruct (num_lt _ _).
    + unfold bind at 1. rewrite insert_transaction_effect, Mode.
      unfold ret. rewrite apply_effects_compose.
      eexists (Ok false), [_], _. split; [reflexivity|].
      split; [constructor; [reflexivity|constructor]|].
      split; [cbn [List.length]; lia|]. intros _. split; [eauto|].
      split; [intros C; contradiction|intros _; cbn [List.length]; lia].
    + unfold bind at 1.
      match goal with
      | |- context [for_each_recipient _ _ _ _ _ _ ?k ?st] =>
          destruct (for_each_recipient_effect tweet author sp parsed
                      (Parser.recipients parsed) k st)
            as [r' [new [t' [E' [F [L U]]]]]]
      end.
      rewrite E'. destruct (U Mode) as [[n' [-> B]] L'].
      unfold ret. rewrite apply_effects_compose.
      exists (Ok (0 <? n')%nat), new, (BalanceRead
        (js_or (Profile.tempo_address sp) (Profile.wallet_address sp)) :: t').
      split; [reflexivity|]. split; [exact F|].
      rewrite <- RE.
      split; [lia|]. intros _. split; [eauto|].
      split; [intros C; contradiction|].
      intros _. rewrite L'. rewrite RE.
      destruct (recipients_of (Tweet.text tweet)); [contradiction|cbn [List.length]; lia].
  - (* the datastore reports errors: nothing is read, nothing is written *)
    cbn [has_rows].
    assert (One : forall h tag rt,
      exists r new t,
        bind (logSkip env (Tweet.id tweet) h tag rt) (fun _ => ret false) s
        = (r, apply_effects new t s)
        /\ for_tweet (Tweet.id tweet) new
        /\ (List.length new
            <= Nat.max 1 (List.length (recipients_of (Tweet.text tweet))))%nat
        /\ (DbError = DbUp ->
            (exists b, r = Ok b)
            /\ (Spec.records_for (Tweet.id tweet) s <> [] ->
                new = [] /\ t = [] /\ r = Ok false)
            /\ (Spec.records_for (Tweet.id tweet) s = [] ->
                (1 <= List.length new)%nat))).
    { intros h tag rt. unfold bind.
      destruct (logSkip_effect (Tweet.id tweet) h tag rt s) as [row [_ [_ [_ [_ E]]]]].
      rewrite E, Mode. exists (Ok false), [], []. rewrite apply_effects_nil.
      split; [reflexivity|]. split; [constructor|].
      split; [cbn [List.length]; lia|]. intros; discriminate. }
    destruct (isQuote tweet && negb (Parser.hasDirectCommand (Tweet.text tweet))).
    { apply One. }
    destruct (Parser.parseP2PCommand (Tweet.text tweet)) as [parsed|].
    2:{ apply One. }
    unfold bind at 1. rewrite select_profile_by_username_effect, Mode.
    apply One.
  - exists (Throw "fetch failed"), [], []. rewrite apply_effects_nil.
    split; [reflexivity|]. split; [constructor|].
    split; [cbn [List.length]; lia|]. intros; discriminate.
Qed.

End Processing.

(** ** The ledger is append-only *)

Lemma Appends_refl (s : State) : Appends s s.
Proof. exists []. now rewrite app_nil_r. Qed.

Lemma Appends_trans (s1 s2 s3 : State) :
  Appends s1 s2 -> Appends s2 s3 -> Appends s1 s3.
Proof.
  intros [n1 E1] [n2 E2]. exists (n1 ++ n2)%list. now rewrite E2, E1, app_assoc.
Qed.

Lemma appends_ret {A : Type} (a : A) : appends (ret a).
Proof. intros s. apply Appends_refl. Qed.

Lemma appends_throw {A : Type} (e : string) : appends (@throw A e).
Proof. intros s. apply Appends_refl. Qed.

Lemma appends_lift {A : Type} (r : res A) : appends (lift r).
Proof. intros s. apply Appends_refl. Qed.

Lemma appends_get : appends get.
Proof. intros s. apply Appends_refl. Qed.

Lemma appends_bind {A B : Type} (m : M A) (k : A -> M B) :
  appends m -> (forall a, appends (k a)) -> appends (bind m k).
Proof.
  intros Hm Hk s. unfold bind. specialize (Hm s).
  destruct (m s) as [[a|e] s1]; simpl in *; [|exact Hm].
  eapply Appends_trans; [exact Hm|apply Hk].
Qed.

Lemma appends_try_catch {A : Type} (m : M A) (h : string -> M A) :
  appends m -> (forall e, appends (h e)) -> appends (try_catch m h).
Proof.
  intros Hm Hh s. unfold try_catch. specialize (Hm s).
  destruct (m s) as [[a|e] s1]; simpl in *; [exact Hm|].
  eapply Appends_trans; [exact Hm|apply Hh].
Qed.


Lemma appends_emit (e : Event) : appends (emit e).
Proof. intros s. exists []. simpl. now rewrite app_nil_r. Qed.

Lemma appends_db_read (env : Env) {A : Type} (q : State -> A) :
  appends (db_read env q).
Proof. intros s. unfold db_read. destruct (db_mode env); apply Appends_refl. Qed.

Lemma appends_db_write (env : Env) (f : State -> State) :
  (forall s, Appends s (f s)) -> appends (db_write env f).
Proof.
  intros H s. unfold db_write.
  destruct (db_mode env); simpl; auto using Appends_refl.
Qed.

Lemma appends_insert_transaction (env : Env) (row : Tx.t) :
  appends (insert_transaction env row).
Proof.
  apply appends_db_write. intros s. exists [row]. reflexivity.
Qed.

Lemma appends_update_campaign (env : Env) (c : Campaign.t) :
  appends (update_campaign env c).
Proof.
  apply appends_db_write. intros s. exists []. simpl. now rewrite app_nil_r.
Qed.

Ltac appends_step :=
  first
    [ apply appends_ret
    | apply appends_throw
    | apply appends_lift
    | apply appends_get
    | apply appends_emit
    | apply appends_db_read
    | apply appends_insert_transaction
    | apply appends_update_campaign
    | apply appends_bind; [|intros ?]
    | apply appends_try_catch; [|intros ?]
    | match goal with
      | |- appends (if ?b then _ else _) => destruct b
      | |- appends (match ?x with _ => _ end) => destruct x
      end ].

Lemma appends_executeTransfer (env : Env) (a : option string) (am : num) (m : string) :
  appends (executeTransfer env a am m).
Proof. unfold executeTransfer, submit. repeat appends_step. Qed.

Lemma appends_executeGrant (env : Env) (a : option string) (am : num) (c : string) :
  appends (executeGrant env a am c).
Proof. unfold executeGrant, submit, wait_receipt. repeat appends_step. Qed.

Lemma appends_getAlphaUsdBalance (env : Env) (a : option string) :
  appends (getAlphaUsdBalance env a).
Proof. unfold getAlphaUsdBalance. repeat appends_step. Qed.

Lemma appends_processP2PCommand (env : Env) (tweet : Tweet.t) (author : User.t) :
  appends (processP2PCommand env tweet author).
Proof.
  intros s.
  destruct (processP2PCommand_effect env tweet author s) as [r [new [t [E _]]]].
  rewrite E. exists new. reflexivity.
Qed.

Lemma appends_for_each_tweet (env : Env) (users : option (list User.t))
    (tweets : list Tweet.t) :
  forall processed, appends (for_each_tweet env users tweets processed).
Proof.
  induction tweets as [|tweet rest IH]; intros processed; cbn [for_each_tweet].
  - apply appends_ret.
  - destruct (match users with Some us => _ | None => None end); [|apply IH].
    destruct (negb _); [apply IH|].
    apply appends_bind; [|intros; apply IH].
    apply appends_try_catch; [|intros; apply appends_ret].
    apply appends_bind; [apply appends_processP2PCommand|intros; apply appends_ret].
Qed.


Lemma appends_process_reply (env : Env) (c : Campaign.t) (us : list User.t)
    (reply : Tweet.t) :
  appends (process_reply env c us reply).
Proof.
  unfold process_reply, select_existing, select_profile_by_username.
  repeat first [ apply appends_executeGrant | appends_step ].
Qed.

Lemma Appends_for_each_reply (env : Env) (c : Campaign.t) (us : list User.t)
    (replies : list Tweet.t) :
  forall processed s, Appends s (snd (for_each_reply env c us replies processed s)).
Proof.
  induction replies as [|reply rest IH]; intros processed s; cbn [for_each_reply].
  - apply Appends_refl.
  - pose proof (appends_process_reply env c us reply s) as H.
    destruct (process_reply env c us reply s) as [[[ | | ]|e] s1]; simpl in H;
      try exact H; eapply Appends_trans; try exact H; apply IH.
Qed.

Lemma Appends_for_each_campaign (env : Env) (cs : list Campaign.t) :
  forall processed s, Appends s (snd (for_each_campaign env cs processed s)).
Proof.
  induction cs as [|c rest IH]; intros processed s; cbn [for_each_campaign].
  - apply Appends_refl.
  - destruct (negb (twitter_client env)); [apply IH|].
    destruct (search_replies env (Campaign.tweet_id c)) as [replies|e]; [|apply IH].
    destruct (data replies) as [[|r rs]|]; try apply IH.
    pose proof (Appends_for_each_reply env c
                  match users replies with Some us => us | None => [] end
                  (r :: rs) processed s) as H.
    destruct (for_each_reply env c _ (r :: rs) processed s) as [p1 s1].
    simpl in H. eapply Appends_trans; [exact H|apply IH].
Qed.



(** ** Paths through [processP2PCommand] and [process_reply] *)

Section Paths.

Variable env : Env.

Hypothesis Up : db_mode env = DbUp.

Lemma gate_p2p (tweet : Tweet.t) (author : User.t) (s : State) :
  Spec.records_for (Tweet.id tweet) s <> [] ->
  processP2PCommand env tweet author s = (Ok false, s).
Proof.
  intros H. unfold processP2PCommand. unfold bind at 1.
  rewrite select_existing_effect, Up, has_rows_firstn.
  destruct (Spec.records_for (Tweet.id tweet) s); [contradiction|reflexivity].
Qed.

Lemma gate_reply (campaign : Campaign.t) (us : list User.t) (reply : Tweet.t)
    (s : State) :
  Spec.records_for (Tweet.id reply) s <> [] ->
  process_reply env campaign us reply s = (Ok Next, s).
Proof.
  intros H. unfold process_reply. unfold bind at 1.
  rewrite select_existing_effect, Up, has_rows_firstn.
  destruct (Spec.records_for (Tweet.id reply) s); [contradiction|reflexivity].
Qed.

Lemma records_for_apply_effects (id : N) (new : list Tx.t) (t : list Event)
    (s : State) :
  for_tweet id new ->
  Spec.records_for id (apply_effects new t s) = (Spec.records_for id s ++ new)%list.
Proof.
  intros F. unfold Spec.records_for, apply_effects. simpl.
  rewrite filter_app. f_equal.
  induction F as [|row rows E _ IH]; [reflexivity|].
  simpl. rewrite E, N.eqb_refl, IH. reflexivity.
Qed.

Lemma recorded_after_p2p (tweet : Tweet.t) (author : User.t) (s : State) :
  Spec.records_for (Tweet.id tweet) (snd (processP2PCommand env tweet author s)) <> [].
Proof.
  destruct (processP2PCommand_effect env tweet author s)
    as [r [new [t [E [F [_ U]]]]]].
  rewrite E. simpl. rewrite records_for_apply_effects by exact F.
  destruct (U Up) as [_ [_ Fresh]].
  destruct (Spec.records_for (Tweet.id tweet) s) as [|row rows] eqn:R.
  - specialize (Fresh eq_refl). destruct new; [simpl in Fresh; lia|discriminate].
  - discriminate.
Qed.


(** From the sender's profile on. *)
Lemma sender_path (tweet : Tweet.t) (author : User.t) (s : State)
    (parsed : Parser.Intent) (sp : Profile.t) :
  Spec.records_for (Tweet.id tweet) s = [] ->
  isQuote tweet && negb (Parser.hasDirectCommand (Tweet.text tweet)) = false ->
  Parser.parseP2PCommand (Tweet.text tweet) = Some parsed ->
  single (filter (fun p => field_is (Profile.x_username p) (User.username author))
                 (profiles s)) = Some sp ->
  let senderAddress := Spec.resolve_address sp in
  let balance :=
    match balanceOf env senderAddress with
    | Ok b => formatUnits b DECIMALS
    | Throw _ => "0"
    end in
  let totalNeeded :=
    Qred (Parser.amount parsed * Num.of_nat (List.length (Parser.recipients parsed))) in
  let s1 := apply_effects [] [BalanceRead senderAddress] s in
  processP2PCommand env tweet author s
  = if num_lt (parseFloat balance) totalNeeded then
      (Ok false,
       apply_effects
         [{| Tx.tweet_id := Tweet.id tweet;
             Tx.chain := "tempo";
             Tx.tx_hash := "ERROR_INSUFFICIENT_BALANCE";
             Tx.sender_id := Profile.id sp;
             Tx.receiver_id := Profile.id sp;
             Tx.amount := Fin totalNeeded;
             Tx.fee := Fin 0;
             Tx.type := p2p_command;
             Tx.status := failed;
             Tx.payer_pay_tag := Profile.pay_tag sp;
             Tx.recipient_pay_tag := Some (Str.join "," (Parser.recipients parsed));
             Tx.error_reason :=
               Some ("Balance " ++ balance ++ " < "
                     ++ toString (Fin totalNeeded) ++ " αUSD");
             Tx.campaign_id := None;
             Tx.replied := Some false |}] [] s1)
    else
      match for_each_recipient env tweet author sp parsed
              (Parser.recipients parsed) 0%nat s1 with
      | (Ok successCount, s2) => (Ok (0 <? successCount)%nat, s2)
      | (Throw e, s2) => (Throw e, s2)
      end.
Proof.
  intros R Q P S. cbv zeta. unfold Spec.resolve_address.
  unfold processP2PCommand. unfold bind at 1.
  rewrite select_existing_effect, Up, has_rows_firstn, R, Q, P.
  unfold bind at 1. rewrite select_profile_by_username_effect, Up, S.
  unfold bind at 1. rewrite getAlphaUsdBalance_effect.
  destruct (num_lt _ _).
  - unfold bind at 1. rewrite insert_transaction_effect, Up. reflexivity.
  - unfold bind at 1. unfold ret.
    destruct (for_each_recipient _ _ _ _ _ _ _ _) as [[n|e] s2]; reflexivity.
Qed.

(** The sender's balance is read before anything else is done. *)
Lemma balance_read_first (tweet : Tweet.t) (author : User.t) (s : State)
    (parsed : Parser.Intent) (sp : Profile.t) :
  Spec.records_for (Tweet.id tweet) s = [] ->
  isQuote tweet && negb (Parser.hasDirectCommand (Tweet.text tweet)) = false ->
  Parser.parseP2PCommand (Tweet.text tweet) = Some parsed ->
  single (filter (fun p => field_is (Profile.x_username p) (User.username author))
                 (profiles s)) = Some sp ->
  exists r new t,
    processP2PCommand env tweet author s
    = (r, apply_effects new (BalanceRead (Spec.resolve_address sp) :: t) s).
Proof.
  intros R Q P S.
  pose proof (sender_path tweet author s parsed sp R Q P S) as H.
  cbv zeta in H. rewrite H. destruct (num_lt _ _).
  - rewrite apply_effects_compose. simpl app. eauto.
  - match goal with
    | |- context [for_each_recipient _ _ _ _ _ _ ?k ?st] =>
        destruct (for_each_recipient_effect env tweet author sp parsed
                    (Parser.recipients parsed) k st)
          as [r' [new [t' [E' _]]]]
    end.
    rewrite E', apply_effects_compose. simpl app.
    destruct r'; eauto.
Qed.

(** A parsed command always needs more than a balance of zero. *)
Lemma zero_is_below_total (text : string) (parsed : Parser.Intent) :
  Parser.parseP2PCommand text = Some parsed ->
  num_lt (parseFloat "0")
         (Qred (Parser.amount parsed
                * Num.of_nat (List.length (Parser.recipients parsed))))
  = true.
Proof.
  intros P. pose proof (parseP2PCommand_cases text) as C. rewrite P in C.
  destruct C as [_ [Pos [_ [RE [NE _]]]]].
  change (parseFloat "0") with (Fin 0). unfold num_lt.
  apply negb_true_iff. apply Qle_bool_false.
  rewrite Qred_correct. apply Qmult_lt_0_compat; [exact Pos|].
  unfold Num.of_nat. rewrite RE.
  destruct (recipients_of text) as [|r rs]; [contradiction|].
  unfold Qlt. cbn [Qnum Qden inject_Z List.length]. lia.
Qed.

End Paths.

Section MorePaths.

Variable env : Env.




(** A found recipient is always handed to the executor, with whatever the
    address expression gave. *)
Lemma recipient_goes_to_executor (tweet : Tweet.t) (author : User.t)
    (sp rp : Profile.t) (parsed : Parser.Intent) (tag : string)
    (rest : list string) (n : nat) (s : State) :
  db_mode env = DbUp ->
  single (filter (fun p => field_is (Profile.pay_tag p) tag
                           || field_is (Profile.x_username p) tag)
                 (profiles s)) = Some rp ->
  exists r new t,
    for_each_recipient env tweet author sp parsed (tag :: rest) n s
    = (r, apply_effects new
            (CallExecuteTransfer (Spec.resolve_address rp)
               (Fin (Parser.amount parsed))
               ("P2P: @" ++ User.username author ++ " → @" ++ tag) :: t) s).
Proof.
  intros Up S. unfold Spec.resolve_address.
  cbn [for_each_recipient]. unfold bind at 1.
  rewrite select_profile_by_tag_effect, Up, S.
  unfold bind at 1. unfold try_catch. unfold bind at 1.
  destruct (executeTransfer_effect env
              (js_or (Profile.tempo_address rp) (Profile.wallet_address rp))
              (Fin (Parser.amount parsed))
              ("P2P: @" ++ User.username author ++ " → @" ++ tag) s)
    as [r [t [E _]]].
  rewrite E. destruct r as [res|msg].
  - unfold bind at 1. rewrite insert_transaction_effect, Up.
    unfold ret at 1. rewrite apply_effects_compose.
    match goal with
    | |- context [for_each_recipient _ _ _ _ _ _ ?k ?st] =>
        destruct (for_each_recipient_effect env tweet author sp parsed rest k st)
          as [r' [new [t' [E' _]]]]
    end.
    rewrite E', apply_effects_compose. simpl app. eauto.
  - unfold bind at 1. rewrite insert_transaction_effect, Up.
    unfold ret at 1. rewrite apply_effects_compose.
    match goal with
    | |- context [for_each_recipient _ _ _ _ _ _ ?k ?st] =>
        destruct (for_each_recipient_effect env tweet author sp parsed rest k st)
          as [r' [new [t' [E' _]]]]
    end.
    rewrite E', apply_effects_compose. simpl app. eauto.
Qed.


(** A found replier is always handed to the executor, with whatever the
    address expression gave. *)
Lemma replier_goes_to_executor (campaign : Campaign.t) (us : list User.t)
    (reply : Tweet.t) (author : User.t) (profile : Profile.t) (s : State) :
  db_mode env = DbUp ->
  Spec.records_for (Tweet.id reply) s = [] ->
  at_capacity campaign = false ->
  find (fun u => (User.id u =? Tweet.author_id reply)%string) us = Some author ->
  single (filter (fun p => field_is (Profile.x_username p) (User.username author))
                 (profiles s)) = Some profile ->
  exists t,
    trace (snd (process_reply env campaign us reply s))
    = (trace s ++ CallExecuteGrant (Spec.resolve_address profile)
                    (Campaign.grant_amount campaign) (Campaign.id campaign) :: t)%list.
Proof.
  intros Up R C F S. unfold Spec.resolve_address.
  unfold process_reply. unfold bind at 1.
  rewrite select_existing_effect, Up, has_rows_firstn, R, C, F.
  unfold bind at 1. rewrite select_profile_by_username_effect, Up, S.
  unfold try_catch. unfold bind at 1.
  destruct (executeGrant_effect env
              (js_or (Profile.tempo_address profile) (Profile.wallet_address profile))
              (Campaign.grant_amount campaign) (Campaign.id campaign) s)
    as [r [t E]].
  rewrite E. destruct r as [res|msg].
  - unfold bind at 1. rewrite insert_transaction_effect, Up.
    unfold bind at 1. unfold update_campaign, db_write. rewrite Up.
    unfold ret. cbn [snd with_campaigns trace apply_effects].
    rewrite app_nil_r. eauto.
  - unfold bind at 1. rewrite insert_transaction_effect, Up.
    unfold ret. cbn [snd trace apply_effects].
    rewrite app_nil_r. eauto.
Qed.

End MorePaths.

(** ** The cursor of the direct-command poller *)

Lemma keeps_cursor_processP2PCommand (env : Env) (tweet : Tweet.t) (author : User.t) :
  keeps_cursor (processP2PCommand env tweet author).
Proof.
  intros s.
  destruct (processP2PCommand_effect env tweet author s) as [r [new [t [E _]]]].
  rewrite E. reflexivity.
Qed.

Lemma keeps_cursor_for_each_tweet (env : Env) (users : option (list User.t))
    (tweets : list Tweet.t) :
  forall processed, keeps_cursor (for_each_tweet env users tweets processed).
Proof.
  induction tweets as [|tweet rest IH]; intros processed s; cbn [for_each_tweet].
  - reflexivity.
  - destruct (match users with Some us => _ | None => None end) as [author|];
      [|apply IH].
    destruct (negb _); [apply IH|].
    unfold bind at 1. unfold try_catch. unfold bind at 1.
    pose proof (keeps_cursor_processP2PCommand env tweet author s) as K.
    destruct (processP2PCommand env tweet author s) as [[b|e] s1];
      simpl in K; unfold ret; rewrite IH; exact K.
Qed.

(** Whatever happens to the posts of a fetched batch, the cursor ends on
    the batch's newest id. *)
Lemma cursor_after_poll (env : Env) (s : State) (m : SearchResult)
    (tweets : list Tweet.t) :
  twitter_client env = true ->
  search_commands env (lastProcessedTweetId s) = Ok m ->
  data m = Some tweets ->
  lastProcessedTweetId (snd (pollP2PCommands env s))
  = js_or_id (newest_id m) (lastProcessedTweetId s).
Proof.
  intros T S D. unfold pollP2PCommands. rewrite T. cbn [negb].
  unfold try_catch, get. unfold bind at 1. unfold lift. unfold bind at 1.
  rewrite S, D. unfold bind at 1.
  pose proof (keeps_cursor_for_each_tweet env (users m) tweets 0%nat
                (with_cursor (js_or_id (newest_id m) (lastProcessedTweetId s)) s))
    as K.
  destruct (for_each_tweet env (users m) tweets 0%nat _) as [[n|e] s1];
    simpl in K; exact K.
Qed.

(** * The claims *)

(** C1, as stated, fails: a command with two recipients leaves two rows
    for its one source event, after one processing and after two. *)
Lemma two_rows_after_processing_twice :
  ~ Spec.at_most_one 100
      (Scenario.after (Scenario.healthy []) Scenario.each_to_two
         (Scenario.after (Scenario.healthy []) Scenario.each_to_two Scenario.start)).
Proof.
  unfold Spec.at_most_one. vm_compute. lia.
Qed.

(** C1, as amended.  When the dedup query answers and the ledger already
    holds a row for the event's id, processing it in either poller returns
    at once and leaves the whole state as it was: no parse result is used,
    no balance is read, no transfer is attempted, no row is inserted.  And
    whatever a first processing of a direct command did, processing the
    same id again, in the same or another cycle, changes nothing: the rows
    of that id after the second processing are those after the first. *)
Theorem reprocessing_adds_nothing (env env' : Env) (tweet tweet' : Tweet.t)
    (author author' : User.t) (campaign : Campaign.t) (us : list User.t)
    (s : State) :
  db_mode env = DbUp ->
  db_mode env' = DbUp ->
  Tweet.id tweet' = Tweet.id tweet ->
  (Spec.records_for (Tweet.id tweet) s <> [] ->
   processP2PCommand env tweet author s = (Ok false, s)
   /\ process_reply env campaign us tweet s = (Ok Next, s))
  /\ (let s1 := snd (processP2PCommand env tweet author s) in
      processP2PCommand env' tweet' author' s1 = (Ok false, s1)
      /\ process_reply env' campaign us tweet' s1 = (Ok Next, s1)).
Proof.
  intros Up Up' I. split.
  - intros R. split; [apply gate_p2p|apply gate_reply]; assumption.
  - cbv zeta.
    pose proof (recorded_after_p2p env Up tweet author s) as R.
    rewrite <- I in R.
    split; [apply gate_p2p|apply gate_reply]; assumption.
Qed.

Lemma reprocessing_adds_nothing_witness :
  processP2PCommand (Scenario.healthy []) Scenario.each_to_two Scenario.carol_user
    (Scenario.after (Scenario.healthy []) Scenario.each_to_two Scenario.start)
  = (Ok false,
     Scenario.after (Scenario.healthy []) Scenario.each_to_two Scenario.start).
Proof.
  exact (proj1 (proj2 (reprocessing_adds_nothing
           (Scenario.healthy []) (Scenario.healthy [])
           Scenario.each_to_two Scenario.each_to_two
           Scenario.carol_user Scenario.carol_user
           {| Campaign.id := "c1"; Campaign.tweet_id := Some 1%N;
              Campaign.network := "tempo"; Campaign.status := "active";
              Campaign.grant_amount := Fin 1; Campaign.max_participants := None;
              Campaign.current_participants := None;
              Campaign.budget_spent := None |}
           [] Scenario.start eq_refl eq_refl eq_refl))).
Defined.



(** BigInt division truncates; on a non-negative amount that is the floor. *)
Lemma fee_is_floor (amountWei : Z) :
  0 <= amountWei ->
  Z.quot (amountWei * FEE_BPS) 10000 = amountWei * 130 / 10000.
Proof.
  intros H. unfold FEE_BPS. apply Z.quot_div_nonneg; lia.
Qed.

Lemma fee_bounds (amountWei : Z) :
  0 <= amountWei ->
  0 <= amountWei * 130 / 10000 <= amountWei.
Proof.
  intros H. split.
  - apply Z.div_pos; lia.
  - apply Z.div_le_upper_bound; lia.
Qed.

(** C4.  For an amount that scales to [amountWei > 0] smallest units, both
    executors compute [fee = floor (amountWei * 130 / 10000)] and
    [netAmount = amountWei - fee] over the integers, so the two add up to
    [amountWei] exactly, and, on a chain that takes and confirms the calls,
    return just these figures; and for 10.00 the fee is 0.13 and the net
    amount 9.87. *)
Theorem fee_split_exact :
  (forall (env : Env) (recipient : option string) (amount : num) (ref : string)
          (s : State) (amountWei : Z),
      parseUnits (toString amount) DECIMALS = Ok amountWei ->
      0 < amountWei ->
      (forall tr call, exists h, writeContract env tr call = Ok h) ->
      (forall h, exists rc, waitForTransactionReceipt env h = Ok rc) ->
      let fee := amountWei * 130 / 10000 in
      let net := amountWei - fee in
      fee + net = amountWei
      /\ 0 <= fee <= amountWei
      /\ (exists h s',
            executeTransfer env recipient amount ref s
            = (Ok {| txHash := h;
                     amount := formatUnits amountWei DECIMALS;
                     fee := formatUnits fee DECIMALS;
                     netAmount := formatUnits net DECIMALS;
                     blockNumber_ := None |}, s'))
      /\ (exists h bn s',
            executeGrant env recipient amount ref s
            = (Ok {| txHash := h;
                     amount := formatUnits amountWei DECIMALS;
                     fee := formatUnits fee DECIMALS;
                     netAmount := formatUnits net DECIMALS;
                     blockNumber_ := Some bn |}, s')))
  /\ (parseUnits (toString (parseFloat "10.00")) DECIMALS = Ok 10000000
      /\ formatUnits (10000000 * 130 / 10000) DECIMALS = "0.13"
      /\ formatUnits (10000000 - 10000000 * 130 / 10000) DECIMALS = "9.87").
Proof.
  split; [|repeat split; reflexivity].
  intros env recipient amount ref s amountWei P Pos W R. cbv zeta.
  pose proof (fee_bounds amountWei ltac:(lia)) as B.
  split; [lia|]. split; [exact B|].
  rewrite <- (fee_is_floor amountWei) by lia.
  split.
  - unfold executeTransfer.
    erewrite bind_ok by apply emit_effect.
    unfold lift at 1. unfold bind at 1. rewrite P.
    unfold bind at 1. rewrite submit_effect.
    match goal with
    | |- context [writeContract env ?tr ?call] =>
        destruct (W tr call) as [h1 E1]; rewrite E1
    end.
    destruct (0 <? Z.quot (amountWei * FEE_BPS) 10000).
    + unfold bind at 1. unfold bind at 1. rewrite submit_effect.
      match goal with
      | |- context [writeContract env ?tr ?call] =>
          destruct (W tr call) as [h2 E2]; rewrite E2
      end.
      unfold ret. eauto.
    + unfold bind at 1. unfold ret. eauto.
  - unfold executeGrant.
    erewrite bind_ok by apply emit_effect.
    unfold lift at 1. unfold bind at 1. rewrite P.
    unfold bind at 1. rewrite submit_effect.
    match goal with
    | |- context [writeContract env ?tr ?call] =>
        destruct (W tr call) as [h1 E1]; rewrite E1
    end.
    unfold wait_receipt. unfold bind at 1.
    erewrite bind_ok by apply emit_effect.
    unfold lift. destruct (R h1) as [rc E]. rewrite E.
    unfold ret. eauto.
Qed.

Lemma fee_split_exact_witness :
  10000000 * 130 / 10000 + (10000000 - 10000000 * 130 / 10000) = 10000000
  /\ exists h s',
       executeTransfer (Scenario.healthy []) (Some "0xA11CE") (Fin 10) "memo"
                       Scenario.start
       = (Ok {| txHash := h;
                amount := formatUnits 10000000 DECIMALS;
                fee := formatUnits (10000000 * 130 / 10000) DECIMALS;
                netAmount := formatUnits (10000000 - 10000000 * 130 / 10000) DECIMALS;
                blockNumber_ := None |}, s').
Proof.
  pose proof (proj1 fee_split_exact (Scenario.healthy []) (Some "0xA11CE")
                (Fin 10) "memo" Scenario.start 10000000
                eq_refl eq_refl
                (fun tr call => ex_intro _ _ eq_refl)
                (fun h => ex_intro _ _ eq_refl)) as H.
  cbv zeta in H. destruct H as [H1 [_ [H2 _]]]. split; [exact H1|exact H2].
Defined.

(** C3.  The claim fails on [executeTransfer], which never waits for a
    receipt: its result is the same whatever the wait would answer, its
    trace holds submissions only, and where no transaction is ever
    confirmed it still returns a result, which [processP2PCommand] records
    as completed.  [executeGrant], next to it, does wait and throws
    there. *)
Theorem executeTransfer_does_not_wait :
  (forall (env : Env) (w : string -> res Receipt) (a : option string) (am : num)
          (m : string) (s : State),
      executeTransfer (with_receipts w env) a am m s = executeTransfer env a am m s)
  /\ (forall (env : Env) (a : option string) (am : num) (m : string) (s : State),
        exists r t,
          executeTransfer env a am m s
          = (r, apply_effects [] (CallExecuteTransfer a am m :: t) s)
          /\ forallb is_submitted t = true)
  /\ fst (executeTransfer Scenario.unconfirmed (Some "0xA11CE") (Fin 5) "memo"
            Scenario.start)
     = Ok {| txHash := "0xtx4935000"; amount := "5"; fee := "0.065";
             netAmount := "4.935"; blockNumber_ := None |}
  /\ map Tx.status
         (monibot_transactions
            (Scenario.after Scenario.unconfirmed Scenario.each_to_two Scenario.start))
     = [completed; completed]
  /\ fst (executeGrant Scenario.unconfirmed (Some "0xA11CE") (Fin 5) "c1"
            Scenario.start)
     = Throw "Timed out while waiting for transaction".
Proof.
  split; [reflexivity|]. split; [intros; apply executeTransfer_effect|].
  repeat split; vm_compute; reflexivity.
Qed.

(** C9.  The claim fails on the direct-command poller, which moves its
    cursor to the newest id fetched before it processes anything: after a
    poll that fetched a batch the cursor is on the batch's newest id,
    whatever became of its posts.  With
    the datastore out of order during the first cycle, the post fetched
    there gets no row, the cursor is on it all the same, the second
    cycle's search starts after it and finds nothing, and the post is never
    processed, though a cycle with the datastore up would have recorded
    it. *)
Theorem cursor_passes_unrecorded_event :
  (forall (env : Env) (s : State) (m : SearchResult) (tweets : list Tweet.t),
      twitter_client env = true ->
      search_commands env (lastProcessedTweetId s) = Ok m ->
      data m = Some tweets ->
      lastProcessedTweetId (snd (pollP2PCommands env s))
      = js_or_id (newest_id m) (lastProcessedTweetId s))
  /\ lastProcessedTweetId
    (snd (pollAndProcess (Scenario.db_down [Scenario.each_to_two]) Scenario.start))
  = Some 100%N
  /\ Spec.records_for 100
       (snd (pollAndProcess (Scenario.db_down [Scenario.each_to_two]) Scenario.start))
     = []
  /\ data (Scenario.search_since [Scenario.each_to_two] (Some 100%N)) = None
  /\ monibot_transactions
       (snd (pollAndProcess (Scenario.healthy [Scenario.each_to_two])
          (snd (pollAndProcess (Scenario.db_down [Scenario.each_to_two])
                  Scenario.start))))
     = []
  /\ lastProcessedTweetId
       (snd (pollAndProcess (Scenario.db_throwing [Scenario.each_to_two])
               Scenario.start))
     = Some 100%N
  /\ monibot_transactions
       (snd (pollAndProcess (Scenario.healthy [Scenario.each_to_two])
          (snd (pollAndProcess (Scenario.db_throwing [Scenario.each_to_two])
                  Scenario.start))))
     = []
  /\ List.length
       (Spec.records_for 100
          (snd (pollAndProcess (Scenario.healthy [Scenario.each_to_two])
                  Scenario.start)))
     = 2%nat.
Proof.
  split; [exact cursor_after_poll|].
  repeat split; vm_compute; reflexivity.
Qed.






(** C8, as stated, fails: a recipient whose profile has neither address is
    not reported as not-found; the executor is called with the missing
    address, a transfer is submitted, and the row written is that of a
    failed transfer. *)
Lemma transfer_attempted_without_address :
  Spec.resolve_address Scenario.bob = None
  /\ trace (Scenario.after Scenario.strict Scenario.to_bob Scenario.start)
     = [BalanceRead (Some "0xC2");
        CallExecuteTransfer None (Fin 5) "P2P: @carol_x → @bob";
        Submitted {| address := ALPHA_USD; functionName := "transfer";
                     to := None; value := 4935000; tag := "" |}]
  /\ map (fun r => (Tx.tx_hash r, Tx.status r, Tx.error_reason r))
         (monibot_transactions
            (Scenario.after Scenario.strict Scenario.to_bob Scenario.start))
     = [("failed_1700000000000", failed, Some "Address is invalid.")].
Proof.
  repeat split; vm_compute; reflexivity.
Qed.

(** C8, as amended.  The address used for a profile is its [tempo_address]
    when that is a non-empty string and its [wallet_address] otherwise,
    which may itself be missing; nothing is reported as not-found on that
    account: a recipient or a replier whose profile was found is handed to
    the executor with whatever address this gave, and a sender's balance is
    read at whatever address this gave. *)
Theorem address_resolution :
  (forall (p : Profile.t) (a : string),
      Profile.tempo_address p = Some a -> a <> "" ->
      Spec.resolve_address p = Some a)
  /\ (forall (p : Profile.t),
        Profile.tempo_address p = None \/ Profile.tempo_address p = Some "" ->
        Spec.resolve_address p = Profile.wallet_address p)
  /\ (forall (env : Env) (tweet : Tweet.t) (author : User.t) (sp rp : Profile.t)
             (parsed : Parser.Intent) (tag : string) (rest : list string)
             (n : nat) (s : State),
        db_mode env = DbUp ->
        single (filter (fun p => field_is (Profile.pay_tag p) tag
                                 || field_is (Profile.x_username p) tag)
                       (profiles s)) = Some rp ->
        exists r new t,
          for_each_recipient env tweet author sp parsed (tag :: rest) n s
          = (r, apply_effects new
                  (CallExecuteTransfer (Spec.resolve_address rp)
                     (Fin (Parser.amount parsed))
                     ("P2P: @" ++ User.username author ++ " → @" ++ tag) :: t) s))
  /\ (forall (env : Env) (campaign : Campaign.t) (us : list User.t)
             (reply : Tweet.t) (author : User.t) (profile : Profile.t) (s : State),
        db_mode env = DbUp ->
        Spec.records_for (Tweet.id reply) s = [] ->
        at_capacity campaign = false ->
        find (fun u => (User.id u =? Tweet.author_id reply)%string) us = Some author ->
        single (filter (fun p => field_is (Profile.x_username p) (User.username author))
                       (profiles s)) = Some profile ->
        exists t,
          trace (snd (process_reply env campaign us reply s))
          = (trace s ++ CallExecuteGrant (Spec.resolve_address profile)
                          (Campaign.grant_amount campaign) (Campaign.id campaign)
                        :: t)%list)
  /\ (forall (env : Env) (tweet : Tweet.t) (author : User.t) (s : State)
             (parsed : Parser.Intent) (sp : Profile.t),
        db_mode env = DbUp ->
        Spec.records_for (Tweet.id tweet) s = [] ->
        isQuote tweet && negb (Parser.hasDirectCommand (Tweet.text tweet)) = false ->
        Parser.parseP2PCommand (Tweet.text tweet) = Some parsed ->
        single (filter (fun p => field_is (Profile.x_username p) (User.username author))
                       (profiles s)) = Some sp ->
        exists r new t,
          processP2PCommand env tweet author s
          = (r, apply_effects new (BalanceRead (Spec.resolve_address sp) :: t) s)).
Proof.
  split; [|split; [|split; [|split]]].
  - intros p a T NE. unfold Spec.resolve_address, js_or. rewrite T.
    destruct a; [contradiction|reflexivity].
  - intros p [T|T]; unfold Spec.resolve_address, js_or; rewrite T; reflexivity.
  - intros. apply recipient_goes_to_executor; assumption.
  - intros. eapply replier_goes_to_executor; eassumption.
  - intros env tweet author s parsed sp Up R Q P S.
    apply (balance_read_first env Up tweet author s parsed sp R Q P S).
Qed.

Lemma address_resolution_witness :
  exists r new t,
    for_each_recipient Scenario.strict Scenario.to_bob Scenario.carol_user
      Scenario.carol
      {| Parser.amount := 5; Parser.recipients := ["bob"]; Parser.isEach := false |}
      ["bob"] 0%nat Scenario.start
    = (r, apply_effects new
            (CallExecuteTransfer None (Fin 5) "P2P: @carol_x → @bob" :: t)
            Scenario.start).
Proof.
  exact (proj1 (proj2 (proj2 address_resolution))
           Scenario.strict Scenario.to_bob Scenario.carol_user Scenario.carol
           Scenario.bob
           {| Parser.amount := 5; Parser.recipients := ["bob"];
              Parser.isEach := false |}
           "bob" [] 0%nat Scenario.start eq_refl eq_refl).
Defined.

(** C10.  [getAlphaUsdBalance] never throws: it reads the balance once and,
    should that read fail, answers "0", which is also what it answers for a
    balance of zero.  So when the read fails for the sender of a command
    that got as far as the balance check, the event is not left for a
    retry: it gets exactly one row, failed, ERROR_INSUFFICIENT_BALANCE, with
    a balance of 0 in its reason, and nothing is sent. *)
Theorem balance_read_failure_is_zero_balance (env : Env) :
  (forall (a : option string) (s : State),
      exists b,
        getAlphaUsdBalance env a s = (Ok b, apply_effects [] [BalanceRead a] s)
        /\ (forall e, balanceOf env a = Throw e -> b = "0")
        /\ (balanceOf env a = Ok 0 -> b = "0"))
  /\ (forall (tweet : Tweet.t) (author : User.t) (s : State)
             (parsed : Parser.Intent) (sp : Profile.t) (e : string),
        db_mode env = DbUp ->
        Spec.records_for (Tweet.id tweet) s = [] ->
        isQuote tweet && negb (Parser.hasDirectCommand (Tweet.text tweet)) = false ->
        Parser.parseP2PCommand (Tweet.text tweet) = Some parsed ->
        single (filter (fun p => field_is (Profile.x_username p) (User.username author))
                       (profiles s)) = Some sp ->
        balanceOf env (Spec.resolve_address sp) = Throw e ->
        exists row,
          processP2PCommand env tweet author s
          = (Ok false,
             apply_effects [row] [BalanceRead (Spec.resolve_address sp)] s)
          /\ Tx.tweet_id row = Tweet.id tweet
          /\ Tx.status row = failed
          /\ Tx.tx_hash row = "ERROR_INSUFFICIENT_BALANCE"
          /\ Tx.error_reason row
             = Some ("Balance 0 < "
                     ++ toString (Fin (Qred (Parser.amount parsed
                          * Num.of_nat (List.length (Parser.recipients parsed)))))
                     ++ " αUSD")).
Proof.
  split.
  - intros a s. eexists. split; [apply getAlphaUsdBalance_effect|].
    split.
    + intros e E. rewrite E. reflexivity.
    + intros E. rewrite E. reflexivity.
  - intros tweet author s parsed sp e Up R Q P S B.
    pose proof (sender_path env Up tweet author s parsed sp R Q P S) as H.
    cbv zeta in H. rewrite B in H.
    rewrite (zero_is_below_total _ _ P) in H.
    rewrite apply_effects_compose in H. simpl app in H.
    eexists. split; [exact H|]. repeat split; reflexivity.
Qed.

Lemma balance_read_failure_is_zero_balance_witness :
  exists row,
    processP2PCommand Scenario.no_balance Scenario.each_to_two Scenario.carol_user
      Scenario.start
    = (Ok false, apply_effects [row] [BalanceRead (Some "0xC2")] Scenario.start)
    /\ Tx.status row = failed
    /\ Tx.error_reason row = Some "Balance 0 < 10 αUSD".
Proof.
  destruct (proj2 (balance_read_failure_is_zero_balance Scenario.no_balance)
              Scenario.each_to_two Scenario.carol_user Scenario.start
              {| Parser.amount := 5; Parser.recipients := ["alice"; "erin"];
                 Parser.isEach := true |}
              Scenario.carol "HTTP request failed"
              eq_refl eq_refl eq_refl eq_refl eq_refl eq_refl)
    as [row [E [_ [St [_ Er]]]]].
  exists row. split; [exact E|]. split; [exact St|exact Er].
Defined.

(** * Further properties of the code *)

(** ** Keywords and mentions ([src/p2p.js]) *)





Lemma span_all (p : ascii -> bool) (s : string) :
  forall a b, Str.span p s = (a, b) -> all_chars p a = true.
Proof.
  induction s as [|c s IH]; simpl; intros a b H.
  - inversion H; reflexivity.
  - destruct (p c) eqn:P.
    + destruct (Str.span p s) as [a' b'] eqn:E. inversion H; subst.
      simpl. rewrite P. eapply IH; reflexivity.
    + inversion H; reflexivity.
Qed.

Lemma mentions_from_shape (fuel : nat) :
  forall s m, In m (Parser.mentions_from fuel s) ->
    exists c name, m = String "@" (String c name)
                   /\ all_chars Str.is_handle (String c name) = true.
Proof.
  induction fuel as [|fuel IH]; intros s m H; [contradiction|].
  destruct s as [|a s]; [contradiction|]. cbn [Parser.mentions_from] in H.
  destruct (Ascii.eqb a "@"); [|eapply IH; exact H].
  destruct (Str.span Str.is_handle s) as [name rest] eqn:Sp.
  destruct name as [|c name]; cbn [Str.is_empty] in H; [eapply IH; exact H|].
  destruct H as [<-|H]; [|eapply IH; exact H].
  exists c, name. split; [reflexivity|]. eapply span_all; exact Sp.
Qed.

Lemma lower_char_tag (c : ascii) :
  Str.is_handle c = true -> is_tag_char (Str.lower_char c) = true.
Proof.
  destruct c as [[] [] [] [] [] [] [] []]; intros H;
    first [discriminate H | reflexivity].
Qed.

Lemma toLowerCase_tag (s : string) :
  all_chars Str.is_handle s = true ->
  all_chars is_tag_char (Str.toLowerCase s) = true.
Proof.
  induction s as [|c s IH]; simpl; [reflexivity|].
  intros H. apply andb_true_iff in H. destruct H as [H1 H2].
  rewrite (lower_char_tag c H1), (IH H2). reflexivity.
Qed.

(** X2.  Every recipient of a parsed intent is a non-empty string over
    [a-z0-9_-]: nothing else can reach the profile filter that is built from
    it. *)
Theorem recipients_are_plain_tags (text : string) (i : Parser.Intent) (r : string) :
  Parser.parseP2PCommand text = Some i ->
  In r (Parser.recipients i) ->
  r <> "" /\ all_chars is_tag_char r = true.
Proof.
  intros P I.
  pose proof (parseP2PCommand_cases text) as C. rewrite P in C.
  destruct C as [_ [_ [_ [RE _]]]]. rewrite RE in I.
  apply recipients_of_In in I. destruct I as [m [M [-> _]]].
  destruct (mentions_from_shape _ _ _ M) as [c [name [-> A]]].
  cbn [Parser.slice1]. split.
  - simpl. discriminate.
  - apply toLowerCase_tag. exact A.
Qed.

Lemma recipients_are_plain_tags_witness :
  "bob-x" <> "" /\ all_chars is_tag_char "bob-x" = true.
Proof.
  exact (recipients_are_plain_tags "@MoniBot send $5 to @Alice, @Bob-X"
           {| Parser.amount := 5; Parser.recipients := ["alice"; "bob-x"];
              Parser.isEach := false |}
           "bob-x" eq_refl (or_intror (or_introl eq_refl))).
Defined.

(** ** The executors ([src/blockchain.js]) *)

Lemma fee_positive_iff (w : Z) :
  0 <= w -> (0 <? Z.quot (w * FEE_BPS) 10000) = (77 <=? w).
Proof.
  intros H. rewrite fee_is_floor by exact H.
  destruct (Z.leb_spec 77 w) as [L|L].
  - apply Z.ltb_lt. apply Z.div_str_pos. lia.
  - apply Z.ltb_ge. rewrite Z.div_small by lia. lia.
Qed.

(** X3.  On a chain that takes every call, [executeTransfer] submits the
    recipient's transfer and then the treasury's, except for amounts under
    77 smallest units, whose fee rounds to zero: for those it submits the
    recipient's transfer alone. *)
Theorem fee_leg_threshold (env : Env) (recipient : option string) (amount : num)
    (memo : string) (s : State) (w : Z) :
  parseUnits (toString amount) DECIMALS = Ok w ->
  0 <= w ->
  (forall tr call, exists h, writeContract env tr call = Ok h) ->
  exists r,
    executeTransfer env recipient amount memo s
    = (Ok r,
       apply_effects []
         (CallExecuteTransfer recipient amount memo
          :: Submitted {| address := ALPHA_USD; functionName := "transfer";
                          to := recipient;
                          value := w - Z.quot (w * FEE_BPS) 10000; tag := "" |}
          :: (if 77 <=? w
              then [Submitted {| address := ALPHA_USD; functionName := "transfer";
                                 to := Some TREASURY;
                                 value := Z.quot (w * FEE_BPS) 10000; tag := "" |}]
              else [])) s).
Proof.
  intros P Pos W. unfold executeTransfer.
  erewrite bind_ok by apply emit_effect.
  unfold lift at 1. unfold bind at 1. rewrite P.
  unfold bind at 1. rewrite submit_effect, apply_effects_compose. simpl app.
  match goal with
  | |- context [writeContract env ?tr ?call] =>
      destruct (W tr call) as [h1 E1]; rewrite E1
  end.
  rewrite (fee_positive_iff w Pos). destruct (77 <=? w).
  - unfold bind at 1. unfold bind at 1.
    rewrite submit_effect, apply_effects_compose. simpl app.
    match goal with
    | |- context [writeContract env ?tr ?call] =>
        destruct (W tr call) as [h2 E2]; rewrite E2
    end.
    unfold ret. eauto.
  - unfold bind at 1. unfold ret. eauto.
Qed.

Lemma fee_leg_threshold_witness :
  exists r,
    executeTransfer (Scenario.healthy []) (Some "0xA11CE")
      (Fin (76 # 1000000)) "dust" Scenario.start
    = (Ok r,
       apply_effects []
         [CallExecuteTransfer (Some "0xA11CE") (Fin (76 # 1000000)) "dust";
          Submitted {| address := ALPHA_USD; functionName := "transfer";
                       to := Some "0xA11CE"; value := 76; tag := "" |}]
         Scenario.start).
Proof.
  exact (fee_leg_threshold (Scenario.healthy []) (Some "0xA11CE")
           (Fin (76 # 1000000)) "dust" Scenario.start 76
           eq_refl ltac:(lia) (fun tr call => ex_intro _ _ eq_refl)).
Defined.

(** X4.  The two legs of [executeTransfer] are not atomic: when the chain
    takes the recipient's transfer and refuses the treasury's, the call
    throws the second error although the first transfer is submitted. *)
Theorem fee_leg_failure_after_payment (env : Env) (recipient : option string)
    (amount : num) (memo : string) (s : State) (w : Z) (h1 e : string) :
  parseUnits (toString amount) DECIMALS = Ok w ->
  77 <= w ->
  writeContract env (trace s ++ [CallExecuteTransfer recipient amount memo])%list
    {| address := ALPHA_USD; functionName := "transfer"; to := recipient;
       value := w - Z.quot (w * FEE_BPS) 10000; tag := "" |} = Ok h1 ->
  writeContract env
    (trace s ++ [CallExecuteTransfer recipient amount memo;
                 Submitted {| address := ALPHA_USD; functionName := "transfer";
                              to := recipient;
                              value := w - Z.quot (w * FEE_BPS) 10000;
                              tag := "" |}])%list
    {| address := ALPHA_USD; functionName := "transfer"; to := Some TREASURY;
       value := Z.quot (w * FEE_BPS) 10000; tag := "" |} = Throw e ->
  executeTransfer env recipient amount memo s
  = (Throw e,
     apply_effects []
       [CallExecuteTransfer recipient amount memo;
        Submitted {| address := ALPHA_USD; functionName := "transfer";
                     to := recipient;
                     value := w - Z.quot (w * FEE_BPS) 10000; tag := "" |};
        Submitted {| address := ALPHA_USD; functionName := "transfer";
                     to := Some TREASURY;
                     value := Z.quot (w * FEE_BPS) 10000; tag := "" |}] s).
Proof.
  intros P Big W1 W2. unfold executeTransfer.
  erewrite bind_ok by apply emit_effect.
  unfold lift at 1. unfold bind at 1. rewrite P.
  unfold bind at 1. rewrite submit_effect, apply_effects_compose. simpl app.
  cbn [trace apply_effects]. rewrite W1.
  rewrite (fee_positive_iff w ltac:(lia)).
  destruct (Z.leb_spec 77 w) as [_|C]; [|lia].
  unfold bind at 1. unfold bind at 1.
  rewrite submit_effect, apply_effects_compose. simpl app.
  cbn [trace apply_effects]. rewrite W2. reflexivity.
Qed.

Lemma fee_leg_failure_after_payment_witness :
  executeTransfer fee_leg_fails (Some "0xA11CE") (Fin 5) "memo" Scenario.start
  = (Throw "nonce too low",
     apply_effects []
       [CallExecuteTransfer (Some "0xA11CE") (Fin 5) "memo";
        Submitted {| address := ALPHA_USD; functionName := "transfer";
                     to := Some "0xA11CE"; value := 4935000; tag := "" |};
        Submitted {| address := ALPHA_USD; functionName := "transfer";
                     to := Some TREASURY; value := 65000; tag := "" |}]
       Scenario.start).
Proof.
  exact (fee_leg_failure_after_payment fee_leg_fails (Some "0xA11CE") (Fin 5)
           "memo" Scenario.start 5000000 "0xtx-0xA11CE" "nonce too low"
           eq_refl ltac:(lia) eq_refl eq_refl).
Defined.

Lemma executeGrant_trace (env : Env) (a : option string) (am : num) (c : string)
    (s : State) :
  exists r t,
    executeGrant env a am c s = (r, apply_effects [] (CallExecuteGrant a am c :: t) s)
    /\ filter is_grant_call t = [].
Proof.
  unfold executeGrant.
  erewrite bind_ok by apply emit_effect.
  unfold lift at 1. unfold bind at 1.
  destruct (parseUnits (toString am) DECIMALS) as [w|e].
  2:{ exists (Throw e), []. split; reflexivity. }
  unfold bind at 1. rewrite submit_effect.
  rewrite apply_effects_compose. simpl app.
  destruct (writeContract env _ _) as [h|e].
  2:{ eexists (Throw e), [_]. split; reflexivity. }
  unfold wait_receipt. unfold bind at 1.
  erewrite bind_ok by apply emit_effect.
  rewrite apply_effects_compose. simpl app.
  unfold lift. destruct (waitForTransactionReceipt env h) as [rc|e].
  - eexists (Ok _), [_; _]. split; reflexivity.
  - eexists (Throw e), [_; _]. split; reflexivity.
Qed.



(** ** What a polling cycle preserves *)

Section Keeps.

Variable R : State -> State -> Prop.
Variable good : Campaign.t -> Prop.

Hypothesis R_refl : forall s, R s s.
Hypothesis R_trans : forall s1 s2 s3, R s1 s2 -> R s2 s3 -> R s1 s3.
Hypothesis R_effects : forall new t s, R s (apply_effects new t s).
Hypothesis R_update :
  forall env c s, good c -> R s (snd (update_campaign env c s)).

Lemma keeps_ret {A : Type} (a : A) : keeps R (ret a).
Proof. intros s. apply R_refl. Qed.

Lemma keeps_bind {A B : Type} (m : M A) (k : A -> M B) :
  keeps R m -> (forall a, keeps R (k a)) -> keeps R (bind m k).
Proof.
  intros Hm Hk s. unfold bind. specialize (Hm s).
  destruct (m s) as [[a|e] s1]; simpl in *; [|exact Hm].
  eapply R_trans; [exact Hm|apply Hk].
Qed.

Lemma keeps_try_catch {A : Type} (m : M A) (h : string -> M A) :
  keeps R m -> (forall e, keeps R (h e)) -> keeps R (try_catch m h).
Proof.
  intros Hm Hh s. unfold try_catch. specialize (Hm s).
  destruct (m s) as [[a|e] s1]; simpl in *; [exact Hm|].
  eapply R_trans; [exact Hm|apply Hh].
Qed.

Lemma keeps_db_read (env : Env) {A : Type} (q : State -> A) :
  keeps R (db_read env q).
Proof. intros s. unfold db_read. destruct (db_mode env); apply R_refl. Qed.

Lemma keeps_insert_transaction (env : Env) (row : Tx.t) :
  keeps R (insert_transaction env row).
Proof.
  intros s. rewrite insert_transaction_effect.
  destruct (db_mode env); simpl; auto.
Qed.

Lemma keeps_executeGrant (env : Env) (a : option string) (am : num) (c : string) :
  keeps R (executeGrant env a am c).
Proof.
  intros s. destruct (executeGrant_effect env a am c s) as [r [t E]].
  rewrite E. apply R_effects.
Qed.

Lemma keeps_processP2PCommand (env : Env) (tweet : Tweet.t) (author : User.t) :
  keeps R (processP2PCommand env tweet author).
Proof.
  intros s.
  destruct (processP2PCommand_effect env tweet author s) as [r [new [t [E _]]]].
  rewrite E. apply R_effects.
Qed.

Lemma keeps_for_each_tweet (env : Env) (users : option (list User.t))
    (tweets : list Tweet.t) :
  forall processed, keeps R (for_each_tweet env users tweets processed).
Proof.
  induction tweets as [|tweet rest IH]; intros processed; cbn [for_each_tweet].
  - apply keeps_ret.
  - destruct (match users with Some us => _ | None => None end); [|apply IH].
    destruct (negb _); [apply IH|].
    apply keeps_bind; [|intros; apply IH].
    apply keeps_try_catch; [|intros; apply keeps_ret].
    apply keeps_bind; [apply keeps_processP2PCommand|intros; apply keeps_ret].
Qed.

Lemma keeps_pollP2PCommands (env : Env) :
  (forall n s, R s (with_cursor (js_or_id n (lastProcessedTweetId s)) s)) ->
  keeps R (pollP2PCommands env).
Proof.
  intros R_cursor. unfold pollP2PCommands.
  destruct (negb (twitter_client env)); [apply keeps_ret|].
  apply keeps_try_catch; [|intros; apply keeps_ret].
  apply keeps_bind; [intros s; apply R_refl|intros s0].
  apply keeps_bind; [intros s; apply R_refl|intros mentions].
  destruct (data mentions); [|apply keeps_ret].
  apply keeps_bind; [|intros; apply keeps_for_each_tweet].
  intros s. apply R_cursor.
Qed.

Lemma keeps_process_reply (env : Env) (c : Campaign.t) (us : list User.t)
    (reply : Tweet.t) :
  good c -> keeps R (process_reply env c us reply).
Proof.
  intros G. unfold process_reply, select_existing, select_profile_by_username.
  apply keeps_bind; [apply keeps_db_read|intros existing].
  destruct (has_rows existing); [apply keeps_ret|].
  destruct (at_capacity c); [apply keeps_ret|].
  destruct (find _ us) as [author|]; [|apply keeps_ret].
  apply keeps_bind.
  { apply keeps_bind; [apply keeps_db_read|intros; apply keeps_ret]. }
  intros [profile|].
  - apply keeps_try_catch.
    + apply keeps_bind; [apply keeps_executeGrant|intros result].
      apply keeps_bind; [apply keeps_insert_transaction|intros _].
      apply keeps_bind; [intros s; apply R_update; exact G|intros _].
      apply keeps_ret.
    + intros e. apply keeps_bind; [apply keeps_insert_transaction|intros _].
      apply keeps_ret.
  - apply keeps_bind; [apply keeps_insert_transaction|intros _]. apply keeps_ret.
Qed.

Lemma keeps_for_each_reply (env : Env) (c : Campaign.t) (us : list User.t)
    (replies : list Tweet.t) :
  good c ->
  forall processed s, R s (snd (for_each_reply env c us replies processed s)).
Proof.
  intros G.
  induction replies as [|reply rest IH]; intros processed s; cbn [for_each_reply].
  - apply R_refl.
  - pose proof (keeps_process_reply env c us reply G s) as H.
    destruct (process_reply env c us reply s) as [[[ | | ]|e] s1]; simpl in H;
      try exact H; eapply R_trans; try exact H; apply IH.
Qed.

Lemma keeps_for_each_campaign (env : Env) (cs : list Campaign.t) :
  Forall good cs ->
  forall processed s, R s (snd (for_each_campaign env cs processed s)).
Proof.
  induction 1 as [|c rest G _ IH]; intros processed s; cbn [for_each_campaign].
  - apply R_refl.
  - destruct (negb (twitter_client env)); [apply IH|].
    destruct (search_replies env (Campaign.tweet_id c)) as [replies|e]; [|apply IH].
    destruct (data replies) as [[|r rs]|]; try apply IH.
    pose proof (keeps_for_each_reply env c
                  match users replies with Some us => us | None => [] end
                  (r :: rs) G processed s) as H.
    destruct (for_each_reply env c _ (r :: rs) processed s) as [p1 s1].
    simpl in H. eapply R_trans; [exact H|apply IH].
Qed.

Lemma keeps_processCampaignQueue (env : Env) :
  (forall c, good c) -> keeps R (processCampaignQueue env).
Proof.
  intros G. unfold processCampaignQueue.
  apply keeps_try_catch; [|intros; apply keeps_ret].
  apply keeps_bind; [apply keeps_db_read|intros cs].
  destruct cs as [[|c cs]|]; [apply keeps_ret| |intros s; apply R_refl].
  intros s.
  pose proof (keeps_for_each_campaign env (c :: cs)
                ltac:(apply Forall_forall; intros; apply G) 0%nat s) as H.
  destruct (for_each_campaign env (c :: cs) 0%nat s) as [n s1]. exact H.
Qed.

End Keeps.

(** Both pollers always return. *)
Lemma pollP2PCommands_returns (env : Env) (s : State) :
  exists n, fst (pollP2PCommands env s) = Ok n.
Proof.
  unfold pollP2PCommands.
  destruct (negb (twitter_client env)); [exists 0%nat; reflexivity|].
  unfold try_catch.
  match goal with
  | |- context [match ?m s with _ => _ end] => destruct (m s) as [[n|e] s1]
  end; [exists n|exists 0%nat]; reflexivity.
Qed.

Lemma processCampaignQueue_returns (env : Env) (s : State) :
  exists n, fst (processCampaignQueue env s) = Ok n.
Proof.
  unfold processCampaignQueue, try_catch.
  match goal with
  | |- context [match ?m s with _ => _ end] => destruct (m s) as [[n|e] s1]
  end; [exists n|exists 0%nat]; reflexivity.
Qed.

Lemma same_counters_refl (s : State) : same_counters s s.
Proof. repeat split. Qed.

Lemma same_counters_trans (s1 s2 s3 : State) :
  same_counters s1 s2 -> same_counters s2 s3 -> same_counters s1 s3.
Proof.
  unfold same_counters. intros [A [B [C D]]] [A' [B' [C' D']]].
  repeat split; congruence.
Qed.

Lemma same_counters_update (env : Env) (c : Campaign.t) (s : State) :
  True -> same_counters s (snd (update_campaign env c s)).
Proof.
  intros _. unfold update_campaign, db_write.
  destruct (db_mode env); repeat split.
Qed.

(** X6.  A polling cycle always completes: it adds one to the cycle counter,
    adds what the two pollers returned to the processed counter, and never
    touches the error counter, because each poller catches whatever is
    thrown inside it. *)
Theorem pollAndProcess_counters (env : Env) (s : State) :
  exists (campaignProcessed p2pProcessed : nat) (s1 s2 : State),
    processCampaignQueue env (bump_cycle s) = (Ok campaignProcessed, s1)
    /\ pollP2PCommands env s1 = (Ok p2pProcessed, s2)
    /\ pollAndProcess env s
       = (Ok tt, add_processed (campaignProcessed + p2pProcessed) s2)
    /\ cycleCount (snd (pollAndProcess env s)) = S (cycleCount s)
    /\ processedCount (snd (pollAndProcess env s))
       = (processedCount s + (campaignProcessed + p2pProcessed))%nat
    /\ errorCount (snd (pollAndProcess env s)) = errorCount s.
Proof.
  destruct (processCampaignQueue_returns env (bump_cycle s)) as [c C].
  pose proof (keeps_processCampaignQueue same_counters (fun _ => True)
                same_counters_refl same_counters_trans
                ltac:(intros; repeat split) same_counters_update env
                (fun _ => I) (bump_cycle s)) as K1.
  destruct (processCampaignQueue env (bump_cycle s)) as [r1 s1] eqn:E1.
  simpl in C, K1. subst r1.
  destruct (pollP2PCommands_returns env s1) as [p P].
  pose proof (keeps_pollP2PCommands same_counters
                same_counters_refl same_counters_trans
                ltac:(intros; repeat split) env
                ltac:(intros; repeat split) s1) as K2.
  destruct (pollP2PCommands env s1) as [r2 s2] eqn:E2.
  simpl in P, K2. subst r2.
  exists c, p, s1, s2.
  assert (E : pollAndProcess env s = (Ok tt, add_processed (c + p) s2)).
  { unfold pollAndProcess. unfold bind at 1. unfold try_catch.
    unfold bind at 1. rewrite E1. unfold bind at 1. rewrite E2. reflexivity. }
  rewrite E. cbn [snd add_processed cycleCount processedCount errorCount].
  destruct K1 as [A1 [B1 [C1 _]]]. destruct K2 as [A2 [B2 [C2 _]]].
  cbn [bump_cycle cycleCount processedCount errorCount] in A1, B1, C1.
  repeat split; congruence.
Qed.

(** The two pollers of a cycle, one after the other. *)
Lemma pollAndProcess_steps (env : Env) (s : State) :
  exists (campaignProcessed p2pProcessed : nat) (s1 s2 : State),
    processCampaignQueue env (bump_cycle s) = (Ok campaignProcessed, s1)
    /\ pollP2PCommands env s1 = (Ok p2pProcessed, s2)
    /\ pollAndProcess env s
       = (Ok tt, add_processed (campaignProcessed + p2pProcessed) s2).
Proof.
  destruct (processCampaignQueue_returns env (bump_cycle s)) as [c C].
  destruct (processCampaignQueue env (bump_cycle s)) as [r1 s1] eqn:E1.
  simpl in C. subst r1.
  destruct (pollP2PCommands_returns env s1) as [p P].
  destruct (pollP2PCommands env s1) as [r2 s2] eqn:E2.
  simpl in P. subst r2.
  exists c, p, s1, s2. split; [reflexivity|split; [exact E2|]].
  unfold pollAndProcess. unfold bind at 1. unfold try_catch.
  unfold bind at 1. rewrite E1. unfold bind at 1. rewrite E2. reflexivity.
Qed.

Lemma cursor_stays_set_update (env : Env) (c : Campaign.t) (s : State) :
  True -> cursor_stays_set s (snd (update_campaign env c s)).
Proof.
  intros _. unfold update_campaign, db_write, cursor_stays_set.
  destruct (db_mode env); auto.
Qed.

(** X7.  Polling never clears the cursor: once [lastProcessedTweetId] holds
    an id it holds one after every cycle, whatever the searches return or
    throw. *)
Theorem cursor_never_cleared (env : Env) (s : State) :
  lastProcessedTweetId s <> None ->
  lastProcessedTweetId (snd (pollAndProcess env s)) <> None.
Proof.
  intros H.
  destruct (pollAndProcess_steps env s) as [c [p [s1 [s2 [E1 [E2 E]]]]]].
  rewrite E. cbn [snd add_processed lastProcessedTweetId].
  assert (Refl : forall x, cursor_stays_set x x) by (intros x K; exact K).
  assert (Trans : forall x y z, cursor_stays_set x y -> cursor_stays_set y z ->
                                cursor_stays_set x z)
    by (intros x y z A B K; auto).
  assert (Eff : forall new t x, cursor_stays_set x (apply_effects new t x))
    by (intros new t x K; exact K).
  pose proof (keeps_processCampaignQueue cursor_stays_set (fun _ => True)
                Refl Trans Eff cursor_stays_set_update env (fun _ => I)
                (bump_cycle s)) as K1.
  rewrite E1 in K1. cbn [snd] in K1.
  assert (Cur : forall n x,
             cursor_stays_set x (with_cursor (js_or_id n (lastProcessedTweetId x)) x)).
  { intros n x K. cbn [with_cursor lastProcessedTweetId].
    destruct n; [discriminate|exact K]. }
  pose proof (keeps_pollP2PCommands cursor_stays_set Refl Trans Eff env Cur s1) as K2.
  rewrite E2 in K2. cbn [snd] in K2.
  apply K2, K1. exact H.
Qed.

Lemma cursor_never_cleared_witness :
  lastProcessedTweetId
    (snd (pollAndProcess (Scenario.db_throwing [])
            (with_cursor (Some 100%N) Scenario.start)))
  <> None.
Proof.
  apply (cursor_never_cleared (Scenario.db_throwing [])
           (with_cursor (Some 100%N) Scenario.start)).
  simpl. discriminate.
Defined.




(** ** When a collaborator is missing *)

Lemma processP2PCommand_down (env : Env) (tweet : Tweet.t) (author : User.t)
    (s : State) :
  db_mode env <> DbUp ->
  exists r, processP2PCommand env tweet author s = (r, s)
            /\ r <> Ok true.
Proof.
  intros Down. unfold processP2PCommand. unfold bind at 1.
  rewrite select_existing_effect.
  destruct (db_mode env) eqn:Mode; [contradiction| |].
  - cbn [has_rows].
    assert (One : forall h tag rt,
      exists r,
        bind (logSkip env (Tweet.id tweet) h tag rt) (fun _ => ret false) s = (r, s)
        /\ r <> Ok true).
    { intros h tag rt. unfold bind.
      destruct (logSkip_effect env (Tweet.id tweet) h tag rt s)
        as [row [_ [_ [_ [_ E]]]]].
      rewrite E, Mode. exists (Ok false). split; [reflexivity|discriminate]. }
    destruct (isQuote tweet && negb (Parser.hasDirectCommand (Tweet.text tweet)));
      [apply One|].
    destruct (Parser.parseP2PCommand (Tweet.text tweet)) as [parsed|]; [|apply One].
    unfold bind at 1. rewrite select_profile_by_username_effect, Mode.
    apply One.
  - exists (Throw "fetch failed"). split; [reflexivity|discriminate].
Qed.

Lemma for_each_tweet_down (env : Env) (users : option (list User.t))
    (tweets : list Tweet.t) :
  db_mode env <> DbUp ->
  forall processed s,
    for_each_tweet env users tweets processed s = (Ok processed, s).
Proof.
  intros Down.
  induction tweets as [|tweet rest IH]; intros processed s; cbn [for_each_tweet].
  - reflexivity.
  - destruct (match users with Some us => _ | None => None end) as [author|];
      [|apply IH].
    destruct (negb _); [apply IH|].
    unfold bind at 1. unfold try_catch. unfold bind at 1.
    destruct (processP2PCommand_down env tweet author s Down) as [r [E N]].
    rewrite E. destruct r as [[|]|e]; unfold ret; try apply IH.
    contradiction.
Qed.

Lemma processCampaignQueue_down (env : Env) (s : State) :
  db_mode env <> DbUp -> processCampaignQueue env s = (Ok 0%nat, s).
Proof.
  intros Down. unfold processCampaignQueue, try_catch, db_read.
  unfold bind at 1.
  destruct (db_mode env); [contradiction|reflexivity|reflexivity].
Qed.

(** X9.  While the datastore does not answer, a polling cycle reads no
    balance, calls no executor and writes nothing: ledger, campaigns and
    trace are as before and nothing is counted as processed. *)
Theorem nothing_moves_without_datastore (env : Env) (s : State) :
  db_mode env <> DbUp ->
  nothing_happened s (snd (pollAndProcess env s))
  /\ processedCount (snd (pollAndProcess env s)) = processedCount s.
Proof.
  intros Down.
  assert (P : exists c, pollP2PCommands env (bump_cycle s)
                        = (Ok 0%nat, with_cursor c (bump_cycle s))).
  { unfold pollP2PCommands.
    destruct (negb (twitter_client env)).
    { exists (lastProcessedTweetId (bump_cycle s)). destruct s; reflexivity. }
    unfold try_catch, get. unfold bind at 1. unfold lift. unfold bind at 1.
    destruct (search_commands env _) as [m|e].
    2:{ exists (lastProcessedTweetId (bump_cycle s)). destruct s; reflexivity. }
    destruct (data m) as [tweets|].
    2:{ exists (lastProcessedTweetId (bump_cycle s)). destruct s; reflexivity. }
    unfold bind at 1. rewrite (for_each_tweet_down env _ _ Down).
    eexists. reflexivity. }
  destruct P as [c P].
  assert (E : pollAndProcess env s
              = (Ok tt, add_processed 0 (with_cursor c (bump_cycle s)))).
  { unfold pollAndProcess. unfold bind at 1. unfold try_catch. unfold bind at 1.
    rewrite (processCampaignQueue_down env _ Down).
    unfold bind at 1. rewrite P. reflexivity. }
  rewrite E. unfold nothing_happened. cbn. repeat split. lia.
Qed.

Lemma nothing_moves_without_datastore_witness :
  nothing_happened Scenario.start
    (snd (pollAndProcess (Scenario.db_down [Scenario.each_to_two]) Scenario.start))
  /\ processedCount
       (snd (pollAndProcess (Scenario.db_down [Scenario.each_to_two]) Scenario.start))
     = processedCount Scenario.start.
Proof.
  apply (nothing_moves_without_datastore
           (Scenario.db_down [Scenario.each_to_two]) Scenario.start).
  simpl. discriminate.
Defined.

Lemma for_each_campaign_no_twitter (env : Env) (cs : list Campaign.t) :
  twitter_client env = false ->
  forall processed s, for_each_campaign env cs processed s = (processed, s).
Proof.
  intros T. induction cs as [|c rest IH]; intros processed s;
    cbn [for_each_campaign]; [reflexivity|].
  rewrite T. cbn [negb]. apply IH.
Qed.

(** X10.  Without a Twitter client a cycle does nothing but count itself:
    neither poller searches, reads, writes or grants, and both return 0. *)
Theorem cycle_without_twitter (env : Env) (s : State) :
  twitter_client env = false ->
  processCampaignQueue env s = (Ok 0%nat, s)
  /\ pollP2PCommands env s = (Ok 0%nat, s)
  /\ pollAndProcess env s = (Ok tt, bump_cycle s).
Proof.
  intros T.
  assert (C : forall x, processCampaignQueue env x = (Ok 0%nat, x)).
  { intros x. unfold processCampaignQueue, try_catch, db_read. unfold bind at 1.
    destruct (db_mode env); try reflexivity.
    destruct (active_campaigns x) as [|c cs]; [reflexivity|].
    rewrite (for_each_campaign_no_twitter env _ T). reflexivity. }
  assert (P : forall x, pollP2PCommands env x = (Ok 0%nat, x)).
  { intros x. unfold pollP2PCommands. rewrite T. reflexivity. }
  split; [apply C|]. split; [apply P|].
  unfold pollAndProcess. unfold bind at 1. unfold try_catch. unfold bind at 1.
  rewrite C. unfold bind at 1. rewrite P.
  destruct s. unfold add_processed, bump_cycle. cbn. rewrite Nat.add_0_r.
  reflexivity.
Qed.

Lemma cycle_without_twitter_witness :
  pollAndProcess
    {| db_mode := DbUp; MONIBOT_PROFILE_ID := None; now := 0%N;
       twitter_client := false;
       search_commands := fun _ => Throw "no client";
       search_replies := fun _ => Throw "no client";
       writeContract := Scenario.accept_all;
       waitForTransactionReceipt := fun _ => Throw "timeout";
       balanceOf := fun _ => Ok 0 |}
    (with_campaign_rows [sample_campaign] Scenario.start)
  = (Ok tt, bump_cycle (with_campaign_rows [sample_campaign] Scenario.start)).
Proof.
  exact (proj2 (proj2 (cycle_without_twitter
           {| db_mode := DbUp; MONIBOT_PROFILE_ID := None; now := 0%N;
              twitter_client := false;
              search_commands := fun _ => Throw "no client";
              search_replies := fun _ => Throw "no client";
              writeContract := Scenario.accept_all;
              waitForTransactionReceipt := fun _ => Throw "timeout";
              balanceOf := fun _ => Ok 0 |}
           (with_campaign_rows [sample_campaign] Scenario.start) eq_refl))).
Defined.

(** ** The campaign-reply loop ([src/database.js]) *)

Lemma for_each_reply_at_capacity (env : Env) (c : Campaign.t) (us : list User.t)
    (replies : list Tweet.t) :
  at_capacity c = true ->
  forall processed s, for_each_reply env c us replies processed s = (processed, s).
Proof.
  intros Cap.
  induction replies as [|reply rest IH]; intros processed s; cbn [for_each_reply];
    [reflexivity|].
  unfold process_reply. unfold bind at 1. rewrite select_existing_effect.
  destruct (db_mode env).
  - destruct (has_rows _); [apply IH|]. rewrite Cap. reflexivity.
  - cbn [has_rows]. rewrite Cap. reflexivity.
  - reflexivity.
Qed.

(** X11.  A campaign is at capacity exactly when [max_participants] is a
    non-zero number that the count read at the start of the cycle has
    reached (a missing count reads as 0; a missing or zero maximum means no
    limit).  For a campaign at capacity the reply loop grants nothing,
    writes nothing, calls nothing and leaves the processed count as it
    was. *)
Theorem capacity_stops_the_loop (env : Env) (c : Campaign.t) (us : list User.t)
    (replies : list Tweet.t) (processed : nat) (s : State) :
  (at_capacity c = true <->
   exists m, Campaign.max_participants c = Some m /\ m <> 0
             /\ m <= match Campaign.current_participants c with
                     | Some n => n
                     | None => 0
                     end)
  /\ (at_capacity c = true ->
      for_each_reply env c us replies processed s = (processed, s)).
Proof.
  split; [|intros Cap; apply for_each_reply_at_capacity; exact Cap].
  unfold at_capacity. destruct (Campaign.max_participants c) as [m|].
  - rewrite andb_true_iff, negb_true_iff, Z.eqb_neq, Z.leb_le. split.
    + intros [A B]. exists m. auto.
    + intros [m' [E [A B]]]. inversion E; subst. auto.
  - split; [discriminate|intros [m [E _]]; discriminate].
Qed.

Lemma capacity_stops_the_loop_witness :
  for_each_reply (Scenario.healthy []) full_campaign
    [Scenario.carol_user] [reply 301 "u-carol"] 0%nat
    (with_campaign_rows [full_campaign] Scenario.start)
  = (0%nat, with_campaign_rows [full_campaign] Scenario.start).
Proof.
  exact (proj2 (capacity_stops_the_loop (Scenario.healthy []) full_campaign
                  [Scenario.carol_user] [reply 301 "u-carol"] 0%nat
                  (with_campaign_rows [full_campaign] Scenario.start))
           eq_refl).
Defined.

Lemma records_for_has (id : N) (s : State) (row : Tx.t) :
  In row (monibot_transactions s) -> Tx.tweet_id row = id ->
  Spec.records_for id s <> [].
Proof.
  intros I E H.
  assert (J : In row (Spec.records_for id s)).
  { apply filter_In. split; [exact I|]. rewrite E. apply N.eqb_refl. }
  rewrite H in J. exact J.
Qed.

Lemma records_persist (id : N) (s s' : State) :
  Appends s s' -> Spec.records_for id s <> [] -> Spec.records_for id s' <> [].
Proof.
  intros [new E] H. unfold Spec.records_for in *. rewrite E, filter_app.
  destruct (filter _ (monibot_transactions s)); [contradiction|discriminate].
Qed.

Lemma process_reply_up (env : Env) (c : Campaign.t) (us : list User.t)
    (reply : Tweet.t) (s : State) :
  db_mode env = DbUp ->
  at_capacity c = false ->
  exists st s',
    process_reply env c us reply s = (Ok st, s')
    /\ st <> Break
    /\ (find (fun u => (User.id u =? Tweet.author_id reply)%string) us <> None ->
        Spec.records_for (Tweet.id reply) s' <> []).
Proof.
  intros Up Cap. unfold process_reply. unfold bind at 1.
  rewrite select_existing_effect, Up, has_rows_firstn.
  destruct (Spec.records_for (Tweet.id reply) s) as [|row0 rows] eqn:R.
  2:{ exists Next, s. split; [reflexivity|]. split; [discriminate|].
      intros _. rewrite R. discriminate. }
  rewrite Cap.
  destruct (find _ us) as [author|].
  2:{ exists Next, s. split; [reflexivity|]. split; [discriminate|].
      intros C. contradiction. }
  unfold bind at 1. rewrite select_profile_by_username_effect, Up.
  destruct (single _) as [profile|].
  - unfold try_catch. unfold bind at 1.
    destruct (executeGrant_effect env
                (js_or (Profile.tempo_address profile) (Profile.wallet_address profile))
                (Campaign.grant_amount c) (Campaign.id c) s) as [r [t E]].
    rewrite E. destruct r as [res|msg].
    + unfold bind at 1. rewrite insert_transaction_effect, Up.
      unfold bind at 1. unfold update_campaign, db_write. rewrite Up.
      unfold ret. eexists Granted, _. split; [reflexivity|].
      split; [discriminate|]. intros _.
      eapply records_for_has;
        [cbn [with_campaigns monibot_transactions apply_effects];
         apply in_or_app; right; left; reflexivity
        |reflexivity].
    + unfold bind at 1. rewrite insert_transaction_effect, Up.
      unfold ret. eexists Next, _. split; [reflexivity|].
      split; [discriminate|]. intros _.
      eapply records_for_has;
        [cbn [monibot_transactions apply_effects];
         apply in_or_app; right; left; reflexivity
        |reflexivity].
  - unfold bind at 1. rewrite insert_transaction_effect, Up.
    unfold ret. eexists Next, _. split; [reflexivity|].
    split; [discriminate|]. intros _.
    eapply records_for_has;
      [cbn [monibot_transactions apply_effects];
       apply in_or_app; right; left; reflexivity
      |reflexivity].
Qed.

Lemma for_each_reply_covers (env : Env) (c : Campaign.t) (us : list User.t)
    (replies : list Tweet.t) (processed : nat) (s : State) (reply : Tweet.t) :
  db_mode env = DbUp ->
  at_capacity c = false ->
  In reply replies ->
  find (fun u => (User.id u =? Tweet.author_id reply)%string) us <> None ->
  Spec.records_for (Tweet.id reply)
    (snd (for_each_reply env c us replies processed s)) <> [].
Proof.
  intros Up Cap I A. revert processed s.
  induction replies as [|r rest IH]; intros processed s; [contradiction|].
  cbn [for_each_reply].
  destruct (process_reply_up env c us r s Up Cap) as [st [s1 [E [NB Rec]]]].
  rewrite E.
  assert (Step : forall k,
             Spec.records_for (Tweet.id reply)
               (snd (for_each_reply env c us rest k s1)) <> []).
  { intros k. destruct I as [->|I].
    - eapply records_persist; [apply Appends_for_each_reply|apply Rec; exact A].
    - apply IH. exact I. }
  destruct st; [apply Step|apply Step|contradiction].
Qed.

(** X12.  With the datastore up and the campaign not at capacity when the
    cycle read it, the reply loop runs to the end of the list: every reply
    whose author is among the users returned has a ledger row afterwards,
    whatever the chain did and whatever [max_participants] says about the
    grants made meanwhile. *)
Theorem every_reply_is_recorded (env : Env) (c : Campaign.t) (us : list User.t)
    (replies : list Tweet.t) (processed : nat) (s : State) (reply : Tweet.t) :
  db_mode env = DbUp ->
  at_capacity c = false ->
  In reply replies ->
  find (fun u => (User.id u =? Tweet.author_id reply)%string) us <> None ->
  Spec.records_for (Tweet.id reply)
    (snd (for_each_reply env c us replies processed s)) <> [].
Proof.
  apply for_each_reply_covers.
Qed.

Lemma every_reply_is_recorded_witness :
  Spec.records_for 202
    (snd (for_each_reply (Scenario.healthy []) sample_campaign
            [Scenario.carol_user; erin_user]
            [reply 201 "u-carol"; reply 202 "u-erin"] 0%nat
            (with_campaign_rows [sample_campaign] Scenario.start)))
  <> [].
Proof.
  apply (every_reply_is_recorded (Scenario.healthy []) sample_campaign
           [Scenario.carol_user; erin_user]
           [reply 201 "u-carol"; reply 202 "u-erin"] 0%nat
           (with_campaign_rows [sample_campaign] Scenario.start)
           (reply 202 "u-erin") eq_refl eq_refl
           (or_intror (or_introl eq_refl))).
  simpl. discriminate.
Defined.

(** ** The direct-command loop ([src/p2p.js]) *)

Lemma for_each_tweet_covers (env : Env) (us : list User.t) (tweets : list Tweet.t)
    (tweet : Tweet.t) :
  db_mode env = DbUp ->
  In tweet tweets ->
  find (fun u => (User.id u =? Tweet.author_id tweet)%string) us <> None ->
  Parser.isTempoRelated (Tweet.text tweet) = true ->
  forall processed s,
    Spec.records_for (Tweet.id tweet)
      (snd (for_each_tweet env (Some us) tweets processed s)) <> [].
Proof.
  intros Up I A T.
  induction tweets as [|t rest IH]; intros processed s; [contradiction|].
  cbn [for_each_tweet].
  destruct I as [->|I].
  - destruct (find _ us) as [author|]; [|contradiction].
    rewrite T. cbn [negb]. unfold bind at 1. unfold try_catch. unfold bind at 1.
    pose proof (recorded_after_p2p env Up tweet author s) as Rec.
    destruct (processP2PCommand env tweet author s) as [[b|e] s1];
      cbn [snd] in Rec; unfold ret;
      (eapply records_persist; [apply appends_for_each_tweet|exact Rec]).
  - specialize (IH I).
    destruct (find (fun u => (User.id u =? Tweet.author_id t)%string) us)
      as [author|]; [|apply IH].
    destruct (negb (Parser.isTempoRelated (Tweet.text t))); [apply IH|].
    unfold bind at 1. unfold try_catch.
    match goal with
    | |- context [match ?m s with _ => _ end] => destruct (m s) as [[k|e] s1]
    end; unfold ret; apply IH.
Qed.

(** X13.  With the datastore up, one failing post does not keep the poller
    from the others: after a poll every fetched post that passes the keyword
    filter and whose author is among the users returned has a ledger row,
    whatever the chain did to any of them. *)
Theorem every_fetched_command_is_recorded (env : Env) (s : State)
    (m : SearchResult) (tweets : list Tweet.t) (us : list User.t)
    (tweet : Tweet.t) :
  db_mode env = DbUp ->
  twitter_client env = true ->
  search_commands env (lastProcessedTweetId s) = Ok m ->
  data m = Some tweets ->
  users m = Some us ->
  In tweet tweets ->
  find (fun u => (User.id u =? Tweet.author_id tweet)%string) us <> None ->
  Parser.isTempoRelated (Tweet.text tweet) = true ->
  Spec.records_for (Tweet.id tweet) (snd (pollP2PCommands env s)) <> [].
Proof.
  intros Up T S D U I A K. unfold pollP2PCommands. rewrite T. cbn [negb].
  unfold try_catch, get. unfold bind at 1. unfold lift. unfold bind at 1.
  rewrite S, D, U. unfold bind at 1.
  pose proof (for_each_tweet_covers env us tweets tweet Up I A K 0%nat
                (with_cursor (js_or_id (newest_id m) (lastProcessedTweetId s)) s))
    as H.
  destruct (for_each_tweet env (Some us) tweets 0%nat _) as [[n|e] s1];
    exact H.
Qed.

Lemma every_fetched_command_is_recorded_witness :
  Spec.records_for 100
    (snd (pollP2PCommands
            (Scenario.env DbUp 20000000 only_alice true
               [Scenario.to_bob; Scenario.each_to_two])
            Scenario.start))
  <> [].
Proof.
  apply (every_fetched_command_is_recorded
           (Scenario.env DbUp 20000000 only_alice true
              [Scenario.to_bob; Scenario.each_to_two])
           Scenario.start
           (Scenario.search_since [Scenario.to_bob; Scenario.each_to_two] None)
           [Scenario.to_bob; Scenario.each_to_two] [Scenario.carol_user]
           Scenario.each_to_two
           eq_refl eq_refl eq_refl eq_refl eq_refl
           (or_intror (or_introl eq_refl))).
  - simpl. discriminate.
  - reflexivity.
Defined.


Lemma submitted_are_not_calls (t : list Event) :
  forallb is_submitted t = true -> filter is_transfer_call t = [].
Proof.
  induction t as [|e t IH]; [reflexivity|]. cbn [forallb filter].
  intros H. apply andb_true_iff in H. destruct H as [H1 H2].
  destruct e; try discriminate H1. cbn [is_transfer_call]. apply IH. exact H2.
Qed.

Lemma failed_hash_prefix (x : string) : prefix "failed_" ("failed_" ++ x) = true.
Proof. destruct x; reflexivity. Qed.

(** The books of the recipient loop: what it returns, what it wrote and what
    it called. *)
Lemma for_each_recipient_account (env : Env) (tweet : Tweet.t) (author : User.t)
    (sp : Profile.t) (parsed : Parser.Intent) (rs : list string) :
  db_mode env = DbUp ->
  forall (n : nat) (s : State),
  exists n' new t,
    for_each_recipient env tweet author sp parsed rs n s
    = (Ok n', apply_effects new t s)
    /\ n' = (n + List.length (filter is_completed new))%nat
    /\ List.length (filter is_transfer_call t)
       = List.length (filter transfer_row new)
    /\ (List.length (filter is_transfer_call t) <= List.length rs)%nat.
Proof.
  intros Up. induction rs as [|tag rest IH]; intros n s.
  - exists n, [], []. rewrite apply_effects_nil. cbn.
    repeat split; lia.
  - cbn [for_each_recipient]. unfold bind at 1.
    rewrite select_profile_by_tag_effect, Up.
    destruct (single _) as [rp|].
    + unfold bind at 1. unfold try_catch. unfold bind at 1.
      destruct (executeTransfer_effect env
                  (js_or (Profile.tempo_address rp) (Profile.wallet_address rp))
                  (Fin (Parser.amount parsed))
                  ("P2P: @" ++ User.username author ++ " → @" ++ tag) s)
        as [r [t [E Sub]]].
      apply submitted_are_not_calls in Sub.
      rewrite E. destruct r as [res|msg].
      * unfold bind at 1. rewrite insert_transaction_effect, Up.
        unfold ret at 1. rewrite apply_effects_compose.
        match goal with
        | |- context [for_each_recipient _ _ _ _ _ _ ?k ?st] =>
            destruct (IH k st) as [n' [new [t' [E' [Cn [Ct Cl]]]]]]
        end.
        rewrite E', apply_effects_compose.
        eexists n', (_ :: new), _. split; [reflexivity|].
        rewrite app_nil_r.
        cbn [app filter is_transfer_call is_completed transfer_row Tx.status orb].
        rewrite filter_app, Sub.
        cbn [app List.length]. repeat split; lia.
      * unfold bind at 1. rewrite insert_transaction_effect, Up.
        unfold ret at 1. rewrite apply_effects_compose.
        match goal with
        | |- context [for_each_recipient _ _ _ _ _ _ ?k ?st] =>
            destruct (IH k st) as [n' [new [t' [E' [Cn [Ct Cl]]]]]]
        end.
        rewrite E', apply_effects_compose.
        eexists n', (_ :: new), _. split; [reflexivity|].
        rewrite app_nil_r.
        cbn [app filter is_transfer_call is_completed transfer_row Tx.status
             Tx.tx_hash orb].
        rewrite failed_hash_prefix, filter_app, Sub.
        cbn [app List.length]. repeat split; lia.
    + unfold bind at 1. rewrite insert_transaction_effect, Up.
      match goal with
      | |- context [for_each_recipient _ _ _ _ _ _ ?k ?st] =>
          destruct (IH k st) as [n' [new [t' [E' [Cn [Ct Cl]]]]]]
      end.
      rewrite E', apply_effects_compose.
      eexists n', (_ :: new), _. split; [reflexivity|].
      cbn [app filter is_completed transfer_row Tx.status Tx.tx_hash orb].
      change (prefix "failed_" "ERROR_RECIPIENT_NOT_FOUND") with false.
      cbn [List.length]. repeat split; lia.
Qed.

(** The books of one run of [processP2PCommand] with the datastore up. *)
Lemma processP2PCommand_account (env : Env) (tweet : Tweet.t) (author : User.t)
    (s : State) :
  db_mode env = DbUp ->
  exists b new t,
    processP2PCommand env tweet author s = (Ok b, apply_effects new t s)
    /\ b = (0 <? List.length (filter is_completed new))%nat
    /\ List.length (filter is_transfer_call t)
       = List.length (filter transfer_row new)
    /\ (List.length (filter is_transfer_call t)
        <= List.length (recipients_of (Tweet.text tweet)))%nat.
Proof.
  intros Up. unfold processP2PCommand. unfold bind at 1.
  rewrite select_existing_effect, Up, has_rows_firstn.
  destruct (Spec.records_for (Tweet.id tweet) s) as [|row0 rows].
  2:{ exists false, [], []. rewrite apply_effects_nil. cbn.
      repeat split; lia. }
  assert (One : forall h tag rt,
    prefix "failed_" h = false ->
    exists b new t,
      bind (logSkip env (Tweet.id tweet) h tag rt) (fun _ => ret false) s
      = (Ok b, apply_effects new t s)
      /\ b = (0 <? List.length (filter is_completed new))%nat
      /\ List.length (filter is_transfer_call t)
         = List.length (filter transfer_row new)
      /\ (List.length (filter is_transfer_call t)
          <= List.length (recipients_of (Tweet.text tweet)))%nat).
  { intros h tag rt NP. unfold bind.
    destruct (logSkip_effect env (Tweet.id tweet) h tag rt s)
      as [row [_ [St [H [_ E]]]]].
    rewrite E, Up. exists false, [row], []. split; [reflexivity|].
    cbn [filter]. unfold transfer_row, is_completed. rewrite St, H, NP.
    cbn. repeat split; lia. }
  destruct (isQuote tweet && negb (Parser.hasDirectCommand (Tweet.text tweet)));
    [apply One; reflexivity|].
  pose proof (parseP2PCommand_cases (Tweet.text tweet)) as PC.
  destruct (Parser.parseP2PCommand (Tweet.text tweet)) as [parsed|];
    [|apply One; reflexivity].
  destruct PC as [_ [_ [_ [RE _]]]].
  unfold bind at 1. rewrite select_profile_by_username_effect, Up.
  destruct (single _) as [sp|]; [|apply One; reflexivity].
  unfold bind at 1. rewrite getAlphaUsdBalance_effect.
  destruct (num_lt _ _).
  - unfold bind at 1. rewrite insert_transaction_effect, Up.
    unfold ret. rewrite apply_effects_compose.
    eexists false, [_], _. split; [reflexivity|].
    cbn. repeat split; lia.
  - unfold bind at 1.
    match goal with
    | |- context [for_each_recipient _ _ _ _ _ _ ?k ?st] =>
        destruct (for_each_recipient_account env tweet author sp parsed
                    (Parser.recipients parsed) Up k st)
          as [n' [new [t' [E' [Cn [Ct Cl]]]]]]
    end.
    rewrite E'. unfold ret. rewrite apply_effects_compose.
    eexists _, new, _. split; [reflexivity|].
    cbn [app filter is_transfer_call]. rewrite <- RE.
    split; [now rewrite Cn|]. split; [exact Ct|exact Cl].
Qed.

(** X14.  With the datastore up, [processP2PCommand] returns [true] exactly
    when it has appended at least one completed row; so the poller counts
    an event as processed exactly when a transfer of it was recorded as
    completed. *)
Theorem processed_means_completed (env : Env) (tweet : Tweet.t) (author : User.t)
    (s : State) :
  db_mode env = DbUp ->
  exists b new t,
    processP2PCommand env tweet author s = (Ok b, apply_effects new t s)
    /\ (b = true <-> exists row, In row new /\ Tx.status row = completed).
Proof.
  intros Up.
  destruct (processP2PCommand_account env tweet author s Up)
    as [b [new [t [E [B _]]]]].
  exists b, new, t. split; [exact E|]. rewrite B. split.
  - intros H. apply Nat.ltb_lt in H.
    destruct (filter is_completed new) as [|row rows] eqn:F; [simpl in H; lia|].
    assert (I : In row (filter is_completed new)) by (rewrite F; now left).
    apply filter_In in I. destruct I as [I C]. exists row. split; [exact I|].
    unfold is_completed in C. destruct (Tx.status row); [reflexivity| |]; discriminate.
  - intros [row [I C]]. apply Nat.ltb_lt.
    assert (J : In row (filter is_completed new)).
    { apply filter_In. split; [exact I|]. unfold is_completed. now rewrite C. }
    destruct (filter is_completed new); [contradiction|simpl; lia].
Qed.

Lemma processed_means_completed_witness :
  exists b new t,
    processP2PCommand (Scenario.env DbUp 20000000 only_alice true [])
      Scenario.each_to_two Scenario.carol_user Scenario.start
    = (Ok b, apply_effects new t Scenario.start)
    /\ (b = true <-> exists row, In row new /\ Tx.status row = completed).
Proof.
  exact (processed_means_completed (Scenario.env DbUp 20000000 only_alice true [])
           Scenario.each_to_two Scenario.carol_user Scenario.start eq_refl).
Defined.

(** X15.  With the datastore up, every call of the transfer executor leaves
    its row: one run of [processP2PCommand] calls [executeTransfer] as many
    times as it appends rows that are completed or carry a [failed_<time>]
    hash, and at most once for each recipient of the text. *)
Theorem every_attempt_is_recorded (env : Env) (tweet : Tweet.t) (author : User.t)
    (s : State) :
  db_mode env = DbUp ->
  exists b new t,
    processP2PCommand env tweet author s = (Ok b, apply_effects new t s)
    /\ List.length (filter is_transfer_call t)
       = List.length (filter transfer_row new)
    /\ (List.length (filter is_transfer_call t)
        <= List.length (recipients_of (Tweet.text tweet)))%nat.
Proof.
  intros Up.
  destruct (processP2PCommand_account env tweet author s Up)
    as [b [new [t [E [_ H]]]]].
  exists b, new, t. split; [exact E|exact H].
Qed.

Lemma every_attempt_is_recorded_witness :
  exists b new t,
    processP2PCommand (Scenario.env DbUp 20000000 only_alice true [])
      Scenario.each_to_two Scenario.carol_user Scenario.start
    = (Ok b, apply_effects new t Scenario.start)
    /\ List.length (filter is_transfer_call t)
       = List.length (filter transfer_row new)
    /\ (List.length (filter is_transfer_call t)
        <= List.length (recipients_of (Tweet.text Scenario.each_to_two)))%nat.
Proof.
  exact (every_attempt_is_recorded (Scenario.env DbUp 20000000 only_alice true [])
           Scenario.each_to_two Scenario.carol_user Scenario.start eq_refl).
Defined.

(** X16.  With the datastore up, a fresh post that is no command, or whose
    author has no single profile with that [x_username], ends in exactly one
    skipped row (SKIP_PARSE_FAILED, or ERROR_SENDER_NOT_FOUND naming the
    author and the first recipient) and touches nothing else: no balance is
    read and no executor is called. *)
Theorem unknown_sender_or_text_is_skipped (env : Env) (tweet : Tweet.t)
    (author : User.t) (s : State) :
  db_mode env = DbUp ->
  Spec.records_for (Tweet.id tweet) s = [] ->
  isQuote tweet && negb (Parser.hasDirectCommand (Tweet.text tweet)) = false ->
  (Parser.parseP2PCommand (Tweet.text tweet) = None ->
   exists row,
     processP2PCommand env tweet author s = (Ok false, apply_effects [row] [] s)
     /\ Tx.tweet_id row = Tweet.id tweet
     /\ Tx.status row = skipped
     /\ Tx.tx_hash row = "SKIP_PARSE_FAILED"
     /\ Tx.payer_pay_tag row = Some (User.username author))
  /\ (forall parsed,
        Parser.parseP2PCommand (Tweet.text tweet) = Some parsed ->
        single (filter (fun p => field_is (Profile.x_username p) (User.username author))
                       (profiles s)) = None ->
        exists row,
          processP2PCommand env tweet author s = (Ok false, apply_effects [row] [] s)
          /\ Tx.tweet_id row = Tweet.id tweet
          /\ Tx.status row = skipped
          /\ Tx.tx_hash row = "ERROR_SENDER_NOT_FOUND"
          /\ Tx.payer_pay_tag row = Some (User.username author)
          /\ Tx.recipient_pay_tag row = hd_error (Parser.recipients parsed)).
Proof.
  intros Up R Q. split.
  - intros P. unfold processP2PCommand. unfold bind at 1.
    rewrite select_existing_effect, Up, has_rows_firstn, R, Q, P.
    unfold logSkip. unfold bind. rewrite insert_transaction_effect, Up.
    unfold ret. eexists. split; [reflexivity|]. repeat split.
  - intros parsed P S. unfold processP2PCommand. unfold bind at 1.
    rewrite select_existing_effect, Up, has_rows_firstn, R, Q, P.
    unfold bind at 1. rewrite select_profile_by_username_effect, Up, S.
    unfold logSkip. unfold bind. rewrite insert_transaction_effect, Up.
    unfold ret. eexists. split; [reflexivity|]. repeat split.
Qed.

Lemma unknown_sender_or_text_is_skipped_witness :
  exists row,
    processP2PCommand (Scenario.healthy [])
      (Scenario.tweet 105 "@monibot send $5 to @alice on tempo")
      {| User.id := "u-zed"; User.username := "zed" |} Scenario.start
    = (Ok false, apply_effects [row] [] Scenario.start)
    /\ Tx.tx_hash row = "ERROR_SENDER_NOT_FOUND"
    /\ Tx.recipient_pay_tag row = Some "alice".
Proof.
  destruct (proj2 (unknown_sender_or_text_is_skipped (Scenario.healthy [])
                     (Scenario.tweet 105 "@monibot send $5 to @alice on tempo")
                     {| User.id := "u-zed"; User.username := "zed" |}
                     Scenario.start eq_refl eq_refl eq_refl)
              {| Parser.amount := 5; Parser.recipients := ["alice"];
                 Parser.isEach := false |} eq_refl eq_refl)
    as [row [E [_ [_ [H [_ Rt]]]]]].
  exists row. split; [exact E|]. split; [exact H|exact Rt].
Defined.

(** ** The campaign queue ([src/database.js]) *)

Lemma for_each_campaign_covers (env : Env) (cs : list Campaign.t) (c : Campaign.t)
    (rep : SearchResult) (replies : list Tweet.t) (reply : Tweet.t) :
  db_mode env = DbUp ->
  twitter_client env = true ->
  In c cs ->
  at_capacity c = false ->
  search_replies env (Campaign.tweet_id c) = Ok rep ->
  data rep = Some replies ->
  In reply replies ->
  find (fun u => (User.id u =? Tweet.author_id reply)%string)
       match users rep with Some us => us | None => [] end <> None ->
  forall processed s,
    Spec.records_for (Tweet.id reply)
      (snd (for_each_campaign env cs processed s)) <> [].
Proof.
  intros Up T I Cap S D J A.
  induction cs as [|c0 rest IH]; intros processed s; [contradiction|].
  cbn [for_each_campaign]. rewrite T. cbn [negb].
  destruct I as [->|I].
  - rewrite S, D. destruct replies as [|r rs]; [contradiction|].
    pose proof (for_each_reply_covers env c _ (r :: rs) processed s reply
                  Up Cap J A) as H.
    destruct (for_each_reply env c _ (r :: rs) processed s) as [p1 s1].
    cbn [snd] in H.
    eapply records_persist; [apply Appends_for_each_campaign|exact H].
  - specialize (IH I).
    destruct (search_replies env (Campaign.tweet_id c0)) as [rep0|e]; [|apply IH].
    destruct (data rep0) as [[|r rs]|]; try apply IH.
    destruct (for_each_reply env c0 _ (r :: rs) processed s) as [p1 s1].
    apply IH.
Qed.

(** X17.  One campaign's failure does not keep the queue from the others:
    with the datastore up, every reply (with a known author) to an active
    Tempo campaign that was not at capacity and whose search answered has a
    ledger row after [processCampaignQueue], whatever the searches and
    grants of the other campaigns did. *)
Theorem every_campaign_gets_its_turn (env : Env) (s : State) (c : Campaign.t)
    (rep : SearchResult) (replies : list Tweet.t) (reply : Tweet.t) :
  db_mode env = DbUp ->
  twitter_client env = true ->
  In c (active_campaigns s) ->
  at_capacity c = false ->
  search_replies env (Campaign.tweet_id c) = Ok rep ->
  data rep = Some replies ->
  In reply replies ->
  find (fun u => (User.id u =? Tweet.author_id reply)%string)
       match users rep with Some us => us | None => [] end <> None ->
  Spec.records_for (Tweet.id reply) (snd (processCampaignQueue env s)) <> [].
Proof.
  intros Up T I Cap S D J A.
  unfold processCampaignQueue, try_catch, db_read. unfold bind at 1. rewrite Up.
  destruct (active_campaigns s) as [|c0 cs] eqn:AC; [contradiction|].
  pose proof (for_each_campaign_covers env (c0 :: cs) c rep replies reply
                Up T I Cap S D J A 0%nat s) as H.
  destruct (for_each_campaign env (c0 :: cs) 0%nat s) as [n s1]. exact H.
Qed.

Lemma every_campaign_gets_its_turn_witness :
  Spec.records_for 202
    (snd (processCampaignQueue flaky_env
            (with_campaign_rows [broken_campaign; sample_campaign] Scenario.start)))
  <> [].
Proof.
  apply (every_campaign_gets_its_turn flaky_env
           (with_campaign_rows [broken_campaign; sample_campaign] Scenario.start)
           sample_campaign
           {| data := Some [reply 201 "u-carol"; reply 202 "u-erin"];
              newest_id := Some 202%N;
              users := Some [Scenario.carol_user; erin_user] |}
           [reply 201 "u-carol"; reply 202 "u-erin"] (reply 202 "u-erin")
           eq_refl eq_refl (or_intror (or_introl eq_refl)) eq_refl eq_refl eq_refl
           (or_intror (or_introl eq_refl))).
  simpl. discriminate.
Defined.

(** ** Letter case ([src/p2p.js]) *)

Section LetterCase.

Import Str.

Ltac by_cases c :=
  destruct c as [[] [] [] [] [] [] [] []]; reflexivity.

Lemma lower_char_idem (c : ascii) : lower_char (lower_char c) = lower_char c.
Proof. by_cases c. Qed.

Lemma is_digit_lower (c : ascii) : is_digit (lower_char c) = is_digit c.
Proof. by_cases c. Qed.

Lemma is_space_lower (c : ascii) : is_space (lower_char c) = is_space c.
Proof. by_cases c. Qed.

Lemma is_word_lower (c : ascii) : is_word (lower_char c) = is_word c.
Proof. by_cases c. Qed.

Lemma is_handle_lower (c : ascii) : is_handle (lower_char c) = is_handle c.
Proof. by_cases c. Qed.

Lemma eqb_dollar_lower (c : ascii) : Ascii.eqb (lower_char c) "$" = Ascii.eqb c "$".
Proof. by_cases c. Qed.

Lemma eqb_at_lower (c : ascii) : Ascii.eqb (lower_char c) "@" = Ascii.eqb c "@".
Proof. by_cases c. Qed.

Lemma toLowerCase_idem (s : string) : toLowerCase (toLowerCase s) = toLowerCase s.
Proof.
  induction s as [|c s IH]; simpl; [reflexivity|].
  now rewrite lower_char_idem, IH.
Qed.

Lemma toLowerCase_length (s : string) :
  String.length (toLowerCase s) = String.length s.
Proof. induction s as [|c s IH]; simpl; [reflexivity|now rewrite IH]. Qed.

Lemma span_lower (p : ascii -> bool) (s : string) :
  (forall c, p (lower_char c) = p c) ->
  span p (toLowerCase s)
  = (toLowerCase (fst (span p s)), toLowerCase (snd (span p s))).
Proof.
  intros H. induction s as [|c s IH]; simpl; [reflexivity|].
  rewrite H. destruct (p c); [|reflexivity].
  rewrite IH. destruct (span p s) as [a b]. reflexivity.
Qed.

Lemma is_empty_lower (s : string) : is_empty (toLowerCase s) = is_empty s.
Proof. destruct s; reflexivity. Qed.

Lemma mentions_from_lower (fuel : nat) :
  forall s,
    Parser.mentions_from fuel (toLowerCase s)
    = map toLowerCase (Parser.mentions_from fuel s).
Proof.
  induction fuel as [|fuel IH]; intros s; [reflexivity|].
  destruct s as [|c s]; [reflexivity|].
  cbn [toLowerCase Parser.mentions_from]. rewrite eqb_at_lower.
  destruct (Ascii.eqb c "@") eqn:E; [|apply IH].
  rewrite (span_lower is_handle s is_handle_lower).
  destruct (span is_handle s) as [name rest]. cbn [fst snd].
  rewrite is_empty_lower. destruct (is_empty name); [apply IH|].
  cbn [map toLowerCase]. rewrite IH. f_equal.
Qed.

Lemma slice1_lower (m : string) :
  Parser.slice1 (toLowerCase m) = toLowerCase (Parser.slice1 m).
Proof. destruct m; reflexivity. Qed.

Lemma parseP2PCommand_lower (text : string) :
  Parser.parseP2PCommand (toLowerCase text) = Parser.parseP2PCommand text.
Proof.
  unfold Parser.parseP2PCommand, Parser.mentions.
  rewrite toLowerCase_idem, toLowerCase_length, mentions_from_lower, map_map.
  destruct (Parser.amountMatch (toLowerCase text)) as [m|]; [|reflexivity].
  destruct (parseFloat m) as [|q]; [reflexivity|].
  destruct (Qle_bool q 0 || negb (Qle_bool q 10000)); [reflexivity|].
  assert (E : map (fun x => toLowerCase (Parser.slice1 (toLowerCase x)))
                  (Parser.mentions_from (String.length text) text)
              = map (fun m0 => toLowerCase (Parser.slice1 m0))
                    (Parser.mentions_from (String.length text) text)).
  { apply map_ext. intros x. now rewrite slice1_lower, toLowerCase_idem. }
  rewrite E. reflexivity.
Qed.

Lemma prefix_ci_lower (p s : string) :
  prefix_ci p (toLowerCase s) = option_map toLowerCase (prefix_ci p s).
Proof.
  revert s. induction p as [|a p IH]; intros s; [reflexivity|].
  destruct s as [|b s]; [reflexivity|].
  cbn [toLowerCase prefix_ci]. rewrite lower_char_idem.
  destruct (Ascii.eqb (lower_char a) (lower_char b)); [apply IH|reflexivity].
Qed.

Lemma plus_lower (p : ascii -> bool) (s : string) :
  (forall c, p (lower_char c) = p c) ->
  Parser.plus p (toLowerCase s) = option_map toLowerCase (Parser.plus p s).
Proof.
  intros H. unfold Parser.plus. rewrite (span_lower p s H).
  destruct (span p s) as [a b]. cbn [fst snd]. rewrite is_empty_lower.
  destruct (is_empty a); reflexivity.
Qed.

Lemma amount_follows_lower (s : string) :
  Parser.amount_follows (toLowerCase s) = Parser.amount_follows s.
Proof.
  unfold Parser.amount_follows. destruct s as [|c s]; [reflexivity|].
  cbn [toLowerCase Parser.opt_char]. rewrite eqb_dollar_lower.
  destruct (Ascii.eqb c "$").
  - destruct s as [|d s]; [reflexivity|]. cbn. apply is_digit_lower.
  - cbn. apply is_digit_lower.
Qed.

Lemma opt_at_lower (s : string) :
  Parser.opt_char "@" (toLowerCase s) = toLowerCase (Parser.opt_char "@" s).
Proof.
  destruct s as [|c s]; [reflexivity|].
  cbn [toLowerCase Parser.opt_char]. rewrite eqb_at_lower.
  destruct (Ascii.eqb c "@"); reflexivity.
Qed.

Lemma send_here_lower (s : string) :
  Parser.send_here (toLowerCase s) = Parser.send_here s.
Proof.
  unfold Parser.send_here. rewrite prefix_ci_lower.
  destruct (prefix_ci "send" s) as [r|]; [|reflexivity]. cbn [option_map].
  rewrite (plus_lower is_space r is_space_lower).
  destruct (Parser.plus is_space r) as [r'|]; [|reflexivity]. cbn [option_map].
  apply amount_follows_lower.
Qed.

Lemma pay_here_lower (s : string) :
  Parser.pay_here (toLowerCase s) = Parser.pay_here s.
Proof.
  unfold Parser.pay_here. rewrite prefix_ci_lower.
  destruct (prefix_ci "pay" s) as [r|]; [|reflexivity]. cbn [option_map].
  rewrite (plus_lower is_space r is_space_lower).
  destruct (Parser.plus is_space r) as [r1|]; [|reflexivity]. cbn [option_map].
  rewrite opt_at_lower, (plus_lower is_word _ is_word_lower).
  destruct (Parser.plus is_word (Parser.opt_char "@" r1)) as [r2|]; [|reflexivity].
  cbn [option_map].
  rewrite (plus_lower is_space r2 is_space_lower).
  destruct (Parser.plus is_space r2) as [r3|]; [|reflexivity]. cbn [option_map].
  apply amount_follows_lower.
Qed.

Lemma hasDirectCommand_lower (s : string) :
  Parser.hasDirectCommand (toLowerCase s) = Parser.hasDirectCommand s.
Proof.
  induction s as [|c s IH].
  - reflexivity.
  - change (toLowerCase (String c s)) with (String (lower_char c) (toLowerCase s)).
    cbn [Parser.hasDirectCommand].
    change (String (lower_char c) (toLowerCase s)) with (toLowerCase (String c s)).
    now rewrite send_here_lower, pay_here_lower, IH.
Qed.

End LetterCase.

(** X18.  The parser ignores ASCII letter case: two texts that differ only
    in the case of their letters give the same answer, the same intent or
    the same [null]. *)
Theorem parser_ignores_case (a b : string) :
  Str.toLowerCase a = Str.toLowerCase b ->
  Parser.parseP2PCommand a = Parser.parseP2PCommand b.
Proof.
  intros E. rewrite <- (parseP2PCommand_lower a), <- (parseP2PCommand_lower b), E.
  reflexivity.
Qed.

Lemma parser_ignores_case_witness :
  Parser.parseP2PCommand "@MoniBot SEND $5 EACH to @Alice ON TEMPO"
  = Parser.parseP2PCommand "@monibot send $5 each to @alice on tempo".
Proof.
  exact (parser_ignores_case "@MoniBot SEND $5 EACH to @Alice ON TEMPO"
           "@monibot send $5 each to @alice on tempo" eq_refl).
Defined.

(** X19.  The quote-tweet filter ignores ASCII letter case: two texts that
    differ only in the case of their letters are both direct commands or
    both not. *)
Theorem quote_filter_ignores_case (a b : string) :
  Str.toLowerCase a = Str.toLowerCase b ->
  Parser.hasDirectCommand a = Parser.hasDirectCommand b.
Proof.
  intros E. rewrite <- (hasDirectCommand_lower a), <- (hasDirectCommand_lower b), E.
  reflexivity.
Qed.

Lemma quote_filter_ignores_case_witness :
  Parser.hasDirectCommand "Nice! PAY @Bob $10"
  = Parser.hasDirectCommand "nice! pay @bob $10".
Proof.
  exact (quote_filter_ignores_case "Nice! PAY @Bob $10" "nice! pay @bob $10"
           eq_refl).
Defined.

(** ** Unit strings and the numbers read back from them *)

Section UnitStrings.
























End UnitStrings.







(** ** The books of the campaign-reply loop ([src/database.js]) *)

Lemma process_reply_account (env : Env) (c : Campaign.t) (us : list User.t)
    (reply : Tweet.t) (s : State) :
  db_mode env = DbUp ->
  exists st s' new t,
    process_reply env c us reply s = (Ok st, s')
    /\ monibot_transactions s' = (monibot_transactions s ++ new)%list
    /\ trace s' = (trace s ++ t)%list
    /\ granted st = List.length (filter is_completed new)
    /\ List.length (filter is_grant_call t)
       = List.length (filter transfer_row new).
Proof.
  intros Up.
  assert (Z0 : forall st, granted st = 0%nat ->
            exists s' new t,
              (Ok st, s) = (Ok st, s')
              /\ monibot_transactions s' = (monibot_transactions s ++ new)%list
              /\ trace s' = (trace s ++ t)%list
              /\ granted st = List.length (filter is_completed new)
              /\ List.length (filter is_grant_call t)
                 = List.length (filter transfer_row new)).
  { intros st G. exists s, [], []. rewrite !app_nil_r, G. repeat split. }
  unfold process_reply. unfold bind at 1.
  rewrite select_existing_effect, Up.
  destruct (has_rows _); [exists Next; apply Z0; reflexivity|].
  destruct (at_capacity c); [exists Break; apply Z0; reflexivity|].
  destruct (find _ us) as [author|]; [|exists Next; apply Z0; reflexivity].
  unfold bind at 1. rewrite select_profile_by_username_effect, Up.
  destruct (single _) as [profile|].
  - unfold try_catch. unfold bind at 1.
    destruct (executeGrant_trace env
                (js_or (Profile.tempo_address profile) (Profile.wallet_address profile))
                (Campaign.grant_amount c) (Campaign.id c) s) as [r [t [E F]]].
    rewrite E. destruct r as [res|msg].
    + unfold bind at 1. rewrite insert_transaction_effect, Up.
      unfold bind at 1. unfold update_campaign, db_write. rewrite Up.
      unfold ret.
      eexists Granted, _, [_], (_ :: t).
      split; [reflexivity|].
      cbn [with_campaigns monibot_transactions trace apply_effects].
      rewrite (app_nil_r (monibot_transactions s)), (app_nil_r (trace s ++ _ :: t)).
      split; [reflexivity|]. split; [reflexivity|].
      cbn [filter is_grant_call is_completed transfer_row Tx.status orb].
      rewrite F. split; reflexivity.
    + unfold bind at 1. rewrite insert_transaction_effect, Up.
      unfold ret.
      eexists Next, _, [_], (_ :: t).
      split; [reflexivity|].
      cbn [monibot_transactions trace apply_effects].
      rewrite (app_nil_r (monibot_transactions s)), (app_nil_r (trace s ++ _ :: t)).
      split; [reflexivity|]. split; [reflexivity|].
      cbn [filter is_grant_call is_completed transfer_row Tx.status Tx.tx_hash orb].
      rewrite failed_hash_prefix, F. split; reflexivity.
  - unfold bind at 1. rewrite insert_transaction_effect, Up.
    unfold ret. eexists Next, _, [_], [].
    split; [reflexivity|].
    cbn [monibot_transactions trace apply_effects].
    split; [reflexivity|]. split; [reflexivity|].
    split; reflexivity.
Qed.

(** X22.  With the datastore up, the reply loop of a campaign adds to the
    processed count exactly the number of completed rows it appends, and it
    calls [executeGrant] exactly as many times as it appends rows that are
    completed or carry a [failed_<time>] hash: every grant attempt leaves
    its row. *)
Theorem grants_are_counted_and_recorded (env : Env) (c : Campaign.t)
    (us : list User.t) (replies : list Tweet.t) :
  db_mode env = DbUp ->
  forall (processed : nat) (s : State),
  exists new t,
    monibot_transactions (snd (for_each_reply env c us replies processed s))
    = (monibot_transactions s ++ new)%list
    /\ trace (snd (for_each_reply env c us replies processed s))
       = (trace s ++ t)%list
    /\ fst (for_each_reply env c us replies processed s)
       = (processed + List.length (filter is_completed new))%nat
    /\ List.length (filter is_grant_call t)
       = List.length (filter transfer_row new).
Proof.
  intros Up. induction replies as [|reply rest IH]; intros processed s.
  - exists [], []. cbn. rewrite !app_nil_r. repeat split; lia.
  - cbn [for_each_reply].
    destruct (process_reply_account env c us reply s Up)
      as [st [s1 [new [t [E [L [T [G C]]]]]]]].
    rewrite E.
    assert (Stop : st = Break ->
              exists new0 t0,
                monibot_transactions s1 = (monibot_transactions s ++ new0)%list
                /\ trace s1 = (trace s ++ t0)%list
                /\ processed
                   = (processed + List.length (filter is_completed new0))%nat
                /\ List.length (filter is_grant_call t0)
                   = List.length (filter transfer_row new0)).
    { intros ->. exists new, t. cbn [granted] in G. repeat split; auto; lia. }
    assert (Go : forall k,
              k = (processed + granted st)%nat ->
              exists new0 t0,
                monibot_transactions (snd (for_each_reply env c us rest k s1))
                = (monibot_transactions s ++ new0)%list
                /\ trace (snd (for_each_reply env c us rest k s1))
                   = (trace s ++ t0)%list
                /\ fst (for_each_reply env c us rest k s1)
                   = (processed + List.length (filter is_completed new0))%nat
                /\ List.length (filter is_grant_call t0)
                   = List.length (filter transfer_row new0)).
    { intros k ->. destruct (IH (processed + granted st)%nat s1)
        as [new1 [t1 [L1 [T1 [P1 C1]]]]].
      exists (new ++ new1)%list, (t ++ t1)%list.
      rewrite L1, T1, P1, L, T, !app_assoc, !filter_app, !length_app.
      repeat split; lia. }
    destruct st.
    + apply Go. cbn. lia.
    + apply Go. cbn. lia.
    + cbn [fst snd]. apply Stop. reflexivity.
Qed.

Lemma grants_are_counted_and_recorded_witness :
  exists new t,
    monibot_transactions
      (snd (for_each_reply (Scenario.healthy []) sample_campaign
              [Scenario.carol_user; erin_user]
              [reply 201 "u-carol"; reply 202 "u-erin"] 0%nat
              (with_campaign_rows [sample_campaign] Scenario.start)))
    = (monibot_transactions (with_campaign_rows [sample_campaign] Scenario.start)
       ++ new)%list
    /\ trace
         (snd (for_each_reply (Scenario.healthy []) sample_campaign
                 [Scenario.carol_user; erin_user]
                 [reply 201 "u-carol"; reply 202 "u-erin"] 0%nat
                 (with_campaign_rows [sample_campaign] Scenario.start)))
       = (trace (with_campaign_rows [sample_campaign] Scenario.start) ++ t)%list
    /\ fst (for_each_reply (Scenario.healthy []) sample_campaign
              [Scenario.carol_user; erin_user]
              [reply 201 "u-carol"; reply 202 "u-erin"] 0%nat
              (with_campaign_rows [sample_campaign] Scenario.start))
       = (0 + List.length (filter is_completed new))%nat
    /\ List.length (filter is_grant_call t)
       = List.length (filter transfer_row new).
Proof.
  exact (grants_are_counted_and_recorded (Scenario.healthy []) sample_campaign
           [Scenario.carol_user; erin_user]
           [reply 201 "u-carol"; reply 202 "u-erin"] eq_refl 0%nat
           (with_campaign_rows [sample_campaign] Scenario.start)).
Defined.
